(** * CanvasViewer: a shallow embedding of [canvasviewer.py]

    The plugin is a Krita dock widget that shows a scaled preview of the
    active document.  This development embeds

    - the Python values and arithmetic the plugin relies on (ints, IEEE
      binary64 floats, the builtins [min], [max] and [int]);
    - the part of the Qt toolkit the plugin calls (image sizes and
      [QImage.scaled], threads, timers), as far as the plugin observes it;
    - [Config], [Worker.process] and every method of [Canvasviewer] that
      touches the refresh machinery, as functions over an explicit state,
      with Python exceptions as an explicit outcome.

    The Krita host and the Qt toolkit are external collaborators: what they
    answer (active document, label geometry, whether a thread leaves its
    event loop in time, whether a call raises) is an input, gathered in
    the record [Env]. *)

From Stdlib Require Import ZArith Bool String Lia.
From Stdlib Require Import Floats.SpecFloat.
From stdpp Require Import base tactics option list.

Local Open Scope Z_scope.

(** ** Python exceptions and results *)

Module Py.

Inductive Exn :=
| TypeError
| ValueError
| ZeroDivisionError
| OverflowError
| AttributeError
| RuntimeError.

(** Outcome of evaluating an expression or running a statement.
    [Abort] is the end of the process on a fatal error of the toolkit;
    it is no exception: no handler and no [finally] clause runs.  The
    arithmetic below never ends that way. *)
Inductive Result (A : Type) :=
| Ok (a : A)
| Raise (e : Exn)
| Abort.
Arguments Ok {A} a.
Arguments Raise {A} e.
Arguments Abort {A}.

#[global] Instance result_ret : MRet Result := fun A a => Ok a.

#[global] Instance result_bind : MBind Result := fun A B k r =>
  match r with
  | Ok a => k a
  | Raise e => Raise e
  | Abort => Abort
  end.

(** *** Floats

    A Python float is an IEEE 754 binary64 number. *)

Definition prec : Z := 53.
Definition emax : Z := 1024.
Definition float := spec_float.

Definition float_of_Z (z : Z) : float := binary_normalize prec emax z 0 false.

Definition is_zero (f : float) : bool :=
  match f with
  | S754_zero _ => true
  | _ => false
  end.

(** *** Values

    Only the value shapes the plugin computes with. *)

#[warnings="-register-all"]
Inductive Val :=
| Int (z : Z)
| Float (f : float)
| Tuple (items : list Val).

(** [float(n)] as done implicitly by mixed arithmetic: an int too large
    for a double raises. *)
Definition to_float (v : Val) : Result float :=
  match v with
  | Int z =>
      match float_of_Z z with
      | S754_infinity _ => Raise OverflowError
      | f => Ok f
      end
  | Float f => Ok f
  | Tuple _ => Raise TypeError
  end.

(** [a * b] *)
Definition mul (a b : Val) : Result Val :=
  match a, b with
  | Int x, Int y => Ok (Int (x * y))
  | Tuple _, _ | _, Tuple _ => Raise TypeError
  | _, _ =>
      x ← to_float a; y ← to_float b; Ok (Float (SFmul prec emax x y))
  end.

(** [a - b] *)
Definition sub (a b : Val) : Result Val :=
  match a, b with
  | Int x, Int y => Ok (Int (x - y))
  | Tuple _, _ | _, Tuple _ => Raise TypeError
  | _, _ =>
      x ← to_float a; y ← to_float b; Ok (Float (SFsub prec emax x y))
  end.

(** [a / b]: true division, always a float.  The operands the plugin
    divides are C ints coming from the toolkit, which convert exactly. *)
Definition truediv (a b : Val) : Result Val :=
  match a, b with
  | Tuple _, _ | _, Tuple _ => Raise TypeError
  | Int _, Int 0 => Raise ZeroDivisionError
  | _, _ =>
      x ← to_float a;
      y ← to_float b;
      if is_zero y then Raise ZeroDivisionError
      else Ok (Float (SFdiv prec emax x y))
  end.

(** [a < b] on numbers. *)
Definition lt (a b : Val) : Result bool :=
  match a, b with
  | Int x, Int y => Ok (x <? y)
  | Tuple _, _ | _, Tuple _ => Raise TypeError
  | _, _ => x ← to_float a; y ← to_float b; Ok (SFltb x y)
  end.

(** [a > b] *)
Definition gt (a b : Val) : Result bool := lt b a.

(** [int(v)]: truncation toward zero. *)
Definition int (v : Val) : Result Z :=
  match v with
  | Int z => Ok z
  | Float (S754_zero _) => Ok 0
  | Float (S754_infinity _) => Raise OverflowError
  | Float S754_nan => Raise ValueError
  | Float (S754_finite s m e) =>
      let mag := if 0 <=? e then Z.pos m * 2 ^ e else Z.pos m / 2 ^ (- e) in
      Ok (if s then - mag else mag)
  | Tuple _ => Raise TypeError
  end.

(** The smallest of a non-empty sequence of values, first one on ties. *)
Fixpoint least (best : Val) (rest : list Val) : Result Val :=
  match rest with
  | [] => Ok best
  | v :: rest' =>
      lt v best ≫= λ smaller : bool, least (if smaller then v else best) rest'
  end.

Fixpoint greatest (best : Val) (rest : list Val) : Result Val :=
  match rest with
  | [] => Ok best
  | v :: rest' =>
      gt v best ≫= λ larger : bool, greatest (if larger then v else best) rest'
  end.

(** The builtin [min]: with one argument it iterates over it, so
    the argument has to be iterable; with several it compares them. *)
Definition min (args : list Val) : Result Val :=
  match args with
  | [] => Raise TypeError
  | [Tuple []] => Raise ValueError
  | [Tuple (v :: vs)] => least v vs
  | [_] => Raise TypeError
  | v :: vs => least v vs
  end.

(** The builtin [max]. *)
Definition max (args : list Val) : Result Val :=
  match args with
  | [] => Raise TypeError
  | [Tuple []] => Raise ValueError
  | [Tuple (v :: vs)] => greatest v vs
  | [_] => Raise TypeError
  | v :: vs => greatest v vs
  end.

End Py.

Import Py.

(** ** The part of Qt the plugin uses

    Behaviour as the toolkit documents it; none of this is plugin code. *)

Module Qt.

Inductive AspectRatioMode :=
| IgnoreAspectRatio
| KeepAspectRatio
| KeepAspectRatioByExpanding.

Inductive TransformationMode :=
| FastTransformation
| SmoothTransformation.

(** [Qt.MouseButton] flags. *)
Definition LeftButton : Z := 1.
Definition RightButton : Z := 2.
Definition MiddleButton : Z := 4.

(** Arguments cross the binding as C [int]s. *)
Definition c_int (z : Z) : Result Z :=
  if (- 2 ^ 31 <=? z) && (z <? 2 ^ 31) then Ok z else Raise OverflowError.

(** [QSize::scaled]: the size [(wd, ht)] fitted to [(s_wd, s_ht)].
    C++ integer division truncates. *)
Definition size_scaled (wd ht s_wd s_ht : Z) (mode : AspectRatioMode) : Z * Z :=
  match mode with
  | IgnoreAspectRatio => (s_wd, s_ht)
  | _ =>
      if (wd =? 0) || (ht =? 0) then (s_wd, s_ht)
      else
        let rw := (s_ht * wd) ÷ ht in
        let useHeight :=
          match mode with
          | KeepAspectRatio => rw <=? s_wd
          | _ => s_wd <=? rw
          end in
        if useHeight then (rw, s_ht) else (s_wd, (s_wd * ht) ÷ wd)
  end.

(** Pixel data is kept symbolic: where it was captured and which
    resamplings it went through. *)
Inductive Pixels :=
| Captured (content : nat)
| Resampled (mode : TransformationMode) (w h : Z) (src : Pixels).

Record ImageData := {
  img_width : Z;
  img_height : Z;
  img_ratio : float;
  img_pixels : Pixels;
}.

(** A [QImage] is null when it has no data. *)
Definition QImage := option ImageData.

Definition isNull (i : QImage) : bool :=
  match i with None => true | Some _ => false end.

Definition width (i : QImage) : Z :=
  match i with None => 0 | Some d => img_width d end.

Definition height (i : QImage) : Z :=
  match i with None => 0 | Some d => img_height d end.

Definition devicePixelRatio (i : QImage) : float :=
  match i with None => float_of_Z 1 | Some d => img_ratio d end.

Definition setDevicePixelRatio (i : QImage) (r : float) : QImage :=
  match i with
  | None => None
  | Some d =>
      Some {| img_width := img_width d; img_height := img_height d;
              img_ratio := r; img_pixels := img_pixels d |}
  end.

(** [QImage::scaled(w, h, aspectMode, transformMode)]: null for a null
    image or an empty target; the image itself when the fitted size is
    its own size; a resampled image of the fitted size otherwise. *)
Definition scaled (i : QImage) (w h : Z) (am : AspectRatioMode)
    (tm : TransformationMode) : QImage :=
  match i with
  | None => None
  | Some d =>
      if (w <? 1) || (h <? 1) then None
      else
        let '(nw, nh) := size_scaled (img_width d) (img_height d) w h am in
        let nw := Z.max nw 1 in
        let nh := Z.max nh 1 in
        if (nw =? img_width d) && (nh =? img_height d) then Some d
        else
          Some {| img_width := nw; img_height := nh;
                  img_ratio := img_ratio d;
                  img_pixels := Resampled tm nw nh (img_pixels d) |}
  end.

End Qt.

(** ** Config *)

Record ConfigT := {
  min_width : Z;
  min_height : Z;
  margin : Z;
  screen_ratio : Z;
  ENABLE_DPI_CORRECTION : bool;
  thumbnail_min_size : Z;
  thumbnail_upscale_factor : Z;
  use_hybrid_scaling : bool;
  state_check_interval : Z;
  idle_check_interval : Z;
  idle_refresh_interval : Z;
}.

(** The class attributes of [Config] as the file sets them. *)
Definition Config : ConfigT := {|
  min_width := 320;
  min_height := 180;
  margin := 2;
  screen_ratio := 2;
  ENABLE_DPI_CORRECTION := true;
  thumbnail_min_size := 140;
  thumbnail_upscale_factor := 2;
  use_hybrid_scaling := true;
  state_check_interval := 100;
  idle_check_interval := 300;
  idle_refresh_interval := 400;
|}.

Definition with_use_hybrid_scaling (b : bool) (c : ConfigT) : ConfigT := {|
  min_width := min_width c;
  min_height := min_height c;
  margin := margin c;
  screen_ratio := screen_ratio c;
  ENABLE_DPI_CORRECTION := ENABLE_DPI_CORRECTION c;
  thumbnail_min_size := thumbnail_min_size c;
  thumbnail_upscale_factor := thumbnail_upscale_factor c;
  use_hybrid_scaling := b;
  state_check_interval := state_check_interval c;
  idle_check_interval := idle_check_interval c;
  idle_refresh_interval := idle_refresh_interval c;
|}.

(** ** Toolkit call sites that may raise

    Every call the plugin makes inside the body of a [try] block is a
    place where the toolkit may raise; which ones do is part of the
    environment.  The calls made outside such a body (the getters of the
    label, the widget and the document, [setText], the timers) are taken
    to answer. *)

Inductive Site :=
(* Worker.process *)
| process_devicePixelRatio
| process_presmooth
| process_fast_scaled
| process_final_scaled
| process_setDevicePixelRatio
(* refresh_thumbnail, stopping the previous thread *)
| stop_isRunning
| stop_quit
| stop_wait
(* refresh_thumbnail, starting the new thread *)
| start_Worker
| start_QThread
| start_moveToThread
| start_connect_started
| start_connect_finished
| start_setObjectName
| start_start
(* update_thumbnail *)
| deliver_isNull
| deliver_fromImage
| deliver_setPixmap
(* on_worker_finished *)
| clean_started_disconnect
| clean_finished_disconnect
| clean_quit
| clean_wait
| clean_worker_deleteLater
| clean_thread_deleteLater.

Definition Faults := Site -> option Exn.

Definition no_faults : Faults := fun _ => None.

(** A toolkit call at [site] answering [a] unless it raises. *)
Definition at_site {A} (faults : Faults) (site : Site) (a : A) : Result A :=
  match faults site with
  | Some e => Raise e
  | None => Ok a
  end.

(** What the console shows. *)
Inductive Printed :=
| Line (text : string)
| LineExn (prefix : string) (e : Exn).

(** ** Worker *)

Record Worker := {
  projection : Qt.QImage;
  width : Z;
  height : Z;
}.

(** The body of the [try] block of [Worker.process]: the image handed
    to [finished.emit]. *)
Definition process_try (cfg : ConfigT) (faults : Faults) (self : Worker)
    : Result Qt.QImage :=
  dpi_scale ← at_site faults process_devicePixelRatio
                (Qt.devicePixelRatio (projection self));
  scaled_width ← Py.mul (Int (width self)) (Float dpi_scale);
  physical_width ← Py.int scaled_width;
  scaled_height ← Py.mul (Int (height self)) (Float dpi_scale);
  physical_height ← Py.int scaled_height;
  w2 ← Qt.c_int (Qt.width (projection self) * 2);
  h2 ← Qt.c_int (Qt.height (projection self) * 2);
  smoothed ← at_site faults process_presmooth
               (Qt.scaled (projection self) w2 h2
                  Qt.KeepAspectRatio Qt.SmoothTransformation);
  let double_width := physical_width * thumbnail_upscale_factor cfg in
  let double_height := physical_height * thumbnail_upscale_factor cfg in
  dw ← Qt.c_int double_width;
  dh ← Qt.c_int double_height;
  fast_scaled ← at_site faults process_fast_scaled
                  (Qt.scaled smoothed dw dh
                     Qt.KeepAspectRatio Qt.FastTransformation);
  pw ← Qt.c_int physical_width;
  ph ← Qt.c_int physical_height;
  final_scaled ← at_site faults process_final_scaled
                   (Qt.scaled fast_scaled pw ph
                      Qt.KeepAspectRatio Qt.SmoothTransformation);
  at_site faults process_setDevicePixelRatio
    (Qt.setDevicePixelRatio final_scaled dpi_scale).

(** [Worker.process]: the images emitted on [finished], and what is
    printed. *)
Definition process (cfg : ConfigT) (faults : Faults) (self : Worker)
    : list Qt.QImage * list Printed :=
  match process_try cfg faults self with
  | Ok final_scaled => ([final_scaled], [])
  | Raise e => ([None], [LineExn "Worker error: " e])
  | Abort => ([], [])
  end.

(** ** Documents of the host *)

Record Document := {
  doc_width : Z;
  doc_height : Z;
  doc_content : nat;
}.

(** [doc.projection(x, y, w, h)]: the rendered rectangle as an image. *)
Definition doc_projection (doc : Document) (x y w h : Z) : Qt.QImage :=
  if (w <? 1) || (h <? 1) then None
  else Some {| Qt.img_width := w; Qt.img_height := h;
               Qt.img_ratio := float_of_Z 1;
               Qt.img_pixels := Qt.Captured (doc_content doc) |}.

(** ** What the host and the toolkit answer during one callback *)

Record Env := {
  faults : Faults;
  activeDocument : option Document;
  (* self.devicePixelRatioF() *)
  devicePixelRatioF : float;
  (* geometry of thumbnail_label *)
  label_width : Z;
  label_height : Z;
  (* whether a running thread that was asked to quit leaves its event
     loop within the bounded wait *)
  exits_in_time : bool;
  (* QApplication.mouseButtons() *)
  mouseButtons : Z;
}.

(** ** Toolkit objects the panel creates *)

Record QThread := {
  isRunning : bool;
  quit_requested : bool;
  started_receivers : nat;
  thread_deleteLater : bool;
  objectName : string;
  (* the object is gone: its last reference was dropped *)
  thread_destroyed : bool;
}.

Record WorkerObject := {
  worker : Worker;
  worker_thread : option nat;
  finished_receivers : nat;
  worker_deleteLater : bool;
  (* the object is gone: its last reference was dropped *)
  worker_destroyed : bool;
}.

Inductive LabelContent :=
| Text (text : string)
| Pixmap (image : Qt.QImage).

(** ** Canvasviewer *)

Record State := {
  (* class attributes of Canvasviewer *)
  _is_thread_running : bool;
  _current_thread : option nat;
  _current_worker : option nat;
  (* instance attributes *)
  _current_thumbnail : option Qt.QImage;
  state : Z;
  idle_state : bool;
  thumbnail_label : LabelContent;
  (* whether the two idle timers are active *)
  idle_timer : bool;
  idle_signal_timer : bool;
  (* the thread and worker objects created so far; a reference is an index *)
  threads : list QThread;
  workers : list WorkerObject;
  (* console output, latest last *)
  printed : list Printed;
}.

Definition set_is_thread_running (v : bool) (s : State) : State := {|
  _is_thread_running := v;
  _current_thread := _current_thread s;
  _current_worker := _current_worker s;
  _current_thumbnail := _current_thumbnail s;
  state := state s;
  idle_state := idle_state s;
  thumbnail_label := thumbnail_label s;
  idle_timer := idle_timer s;
  idle_signal_timer := idle_signal_timer s;
  threads := threads s;
  workers := workers s;
  printed := printed s;
|}.

Definition set_current_thread (v : option nat) (s : State) : State := {|
  _is_thread_running := _is_thread_running s;
  _current_thread := v;
  _current_worker := _current_worker s;
  _current_thumbnail := _current_thumbnail s;
  state := state s;
  idle_state := idle_state s;
  thumbnail_label := thumbnail_label s;
  idle_timer := idle_timer s;
  idle_signal_timer := idle_signal_timer s;
  threads := threads s;
  workers := workers s;
  printed := printed s;
|}.

Definition set_current_worker (v : option nat) (s : State) : State := {|
  _is_thread_running := _is_thread_running s;
  _current_thread := _current_thread s;
  _current_worker := v;
  _current_thumbnail := _current_thumbnail s;
  state := state s;
  idle_state := idle_state s;
  thumbnail_label := thumbnail_label s;
  idle_timer := idle_timer s;
  idle_signal_timer := idle_signal_timer s;
  threads := threads s;
  workers := workers s;
  printed := printed s;
|}.

Definition set_current_thumbnail (v : option Qt.QImage) (s : State) : State := {|
  _is_thread_running := _is_thread_running s;
  _current_thread := _current_thread s;
  _current_worker := _current_worker s;
  _current_thumbnail := v;
  state := state s;
  idle_state := idle_state s;
  thumbnail_label := thumbnail_label s;
  idle_timer := idle_timer s;
  idle_signal_timer := idle_signal_timer s;
  threads := threads s;
  workers := workers s;
  printed := printed s;
|}.

Definition set_state (v : Z) (s : State) : State := {|
  _is_thread_running := _is_thread_running s;
  _current_thread := _current_thread s;
  _current_worker := _current_worker s;
  _current_thumbnail := _current_thumbnail s;
  state := v;
  idle_state := idle_state s;
  thumbnail_label := thumbnail_label s;
  idle_timer := idle_timer s;
  idle_signal_timer := idle_signal_timer s;
  threads := threads s;
  workers := workers s;
  printed := printed s;
|}.

Definition set_idle_state (v : bool) (s : State) : State := {|
  _is_thread_running := _is_thread_running s;
  _current_thread := _current_thread s;
  _current_worker := _current_worker s;
  _current_thumbnail := _current_thumbnail s;
  state := state s;
  idle_state := v;
  thumbnail_label := thumbnail_label s;
  idle_timer := idle_timer s;
  idle_signal_timer := idle_signal_timer s;
  threads := threads s;
  workers := workers s;
  printed := printed s;
|}.

Definition set_thumbnail_label (v : LabelContent) (s : State) : State := {|
  _is_thread_running := _is_thread_running s;
  _current_thread := _current_thread s;
  _current_worker := _current_worker s;
  _current_thumbnail := _current_thumbnail s;
  state := state s;
  idle_state := idle_state s;
  thumbnail_label := v;
  idle_timer := idle_timer s;
  idle_signal_timer := idle_signal_timer s;
  threads := threads s;
  workers := workers s;
  printed := printed s;
|}.

Definition set_idle_timer (v : bool) (s : State) : State := {|
  _is_thread_running := _is_thread_running s;
  _current_thread := _current_thread s;
  _current_worker := _current_worker s;
  _current_thumbnail := _current_thumbnail s;
  state := state s;
  idle_state := idle_state s;
  thumbnail_label := thumbnail_label s;
  idle_timer := v;
  idle_signal_timer := idle_signal_timer s;
  threads := threads s;
  workers := workers s;
  printed := printed s;
|}.

Definition set_idle_signal_timer (v : bool) (s : State) : State := {|
  _is_thread_running := _is_thread_running s;
  _current_thread := _current_thread s;
  _current_worker := _current_worker s;
  _current_thumbnail := _current_thumbnail s;
  state := state s;
  idle_state := idle_state s;
  thumbnail_label := thumbnail_label s;
  idle_timer := idle_timer s;
  idle_signal_timer := v;
  threads := threads s;
  workers := workers s;
  printed := printed s;
|}.

Definition set_threads (v : list QThread) (s : State) : State := {|
  _is_thread_running := _is_thread_running s;
  _current_thread := _current_thread s;
  _current_worker := _current_worker s;
  _current_thumbnail := _current_thumbnail s;
  state := state s;
  idle_state := idle_state s;
  thumbnail_label := thumbnail_label s;
  idle_timer := idle_timer s;
  idle_signal_timer := idle_signal_timer s;
  threads := v;
  workers := workers s;
  printed := printed s;
|}.

Definition set_workers (v : list WorkerObject) (s : State) : State := {|
  _is_thread_running := _is_thread_running s;
  _current_thread := _current_thread s;
  _current_worker := _current_worker s;
  _current_thumbnail := _current_thumbnail s;
  state := state s;
  idle_state := idle_state s;
  thumbnail_label := thumbnail_label s;
  idle_timer := idle_timer s;
  idle_signal_timer := idle_signal_timer s;
  threads := threads s;
  workers := v;
  printed := printed s;
|}.

Definition set_printed (v : list Printed) (s : State) : State := {|
  _is_thread_running := _is_thread_running s;
  _current_thread := _current_thread s;
  _current_worker := _current_worker s;
  _current_thumbnail := _current_thumbnail s;
  state := state s;
  idle_state := idle_state s;
  thumbnail_label := thumbnail_label s;
  idle_timer := idle_timer s;
  idle_signal_timer := idle_signal_timer s;
  threads := threads s;
  workers := workers s;
  printed := v;
|}.

(** The panel as created by [__init__], before [initUI] asks for the
    first thumbnail (the label text is the one of a locale other than
    zh_CN). *)
Definition init : State := {|
  _is_thread_running := false;
  _current_thread := None;
  _current_worker := None;
  _current_thumbnail := None;
  state := 0;
  idle_state := false;
  thumbnail_label := Text "Canvas Viewer 面板";
  idle_timer := false;
  idle_signal_timer := false;
  threads := [];
  workers := [];
  printed := [];
|}.

(** ** Statements: state passing with exceptions

    A statement runs from a state and either completes with a value or
    raises; the state reached is kept in both cases, as assignments made
    before a [raise] are not undone. *)

Definition M (A : Type) : Type := State -> Result A * State.

#[global] Instance M_ret : MRet M := fun A a s => (Ok a, s).

#[global] Instance M_bind : MBind M := fun A B k m s =>
  match m s with
  | (Ok a, s') => k a s'
  | (Raise e, s') => (Raise e, s')
  | (Abort, s') => (Abort, s')
  end.

Definition gets {A} (f : State -> A) : M A := fun s => (Ok (f s), s).

Definition modify (f : State -> State) : M unit := fun s => (Ok tt, f s).

Definition lift {A} (r : Result A) : M A := fun s => (r, s).

Definition skip : M unit := mret tt.

(** The process ends here.  Of a process that is gone nothing is left
    to observe; the state is handed on as it was. *)
Definition abort {A} : M A := fun s => (Abort, s).

(** [try: body except Exception as e: handler e] *)
Definition try_except {A} (body : M A) (handler : Exn -> M A) : M A := fun s =>
  match body s with
  | (Ok a, s') => (Ok a, s')
  | (Raise e, s') => handler e s'
  | (Abort, s') => (Abort, s')
  end.

(** [try: body finally: final] *)
Definition try_finally {A} (body : M A) (final : M unit) : M A := fun s =>
  match body s with
  | (Abort, s') => (Abort, s')
  | (r, s') =>
      match final s' with
      | (Ok _, s'') => (r, s'')
      | (Raise e, s'') => (Raise e, s'')
      | (Abort, s'') => (Abort, s'')
      end
  end.

Definition print (p : Printed) : M unit :=
  modify (fun s => set_printed (printed s ++ [p]) s).

(** *** Operations on the toolkit objects *)

Section Toolkit.

Variable env : Env.

Definition call {A} (site : Site) (a : A) : M A := lift (at_site (faults env) site a).

Definition alter_thread (f : QThread -> QThread) (t : nat) : M unit :=
  modify (fun s => set_threads (alter f t (threads s)) s).

Definition alter_worker (f : WorkerObject -> WorkerObject) (w : nat) : M unit :=
  modify (fun s => set_workers (alter f w (workers s)) s).

(** [QThread()] *)
Definition new_QThread (site : Site) : M nat :=
  call site tt;;
  t ← gets (fun s => length (threads s));
  modify (fun s => set_threads (threads s ++
    [{| isRunning := false; quit_requested := false; started_receivers := 0;
        thread_deleteLater := false; objectName := "";
        thread_destroyed := false |}]) s);;
  mret t.

(** [Worker(projection, width, height)] *)
Definition new_Worker (site : Site) (self : Worker) : M nat :=
  call site tt;;
  w ← gets (fun s => length (workers s));
  modify (fun s => set_workers (workers s ++
    [{| worker := self; worker_thread := None; finished_receivers := 0;
        worker_deleteLater := false; worker_destroyed := false |}]) s);;
  mret w.

(** [thread.isRunning()] *)
Definition thread_isRunning (site : Site) (t : nat) : M bool :=
  call site tt;;
  gets (fun s => match threads s !! t with Some th => isRunning th | None => false end).

Definition started (th : QThread) : QThread :=
  {| isRunning := true; quit_requested := false;
     started_receivers := started_receivers th;
     thread_deleteLater := thread_deleteLater th;
     objectName := objectName th;
     thread_destroyed := thread_destroyed th |}.

(** [thread.start(priority)] *)
Definition thread_start (site : Site) (t : nat) : M unit :=
  call site tt;;
  alter_thread started t.

Definition asked_to_quit (th : QThread) : QThread :=
  {| isRunning := isRunning th; quit_requested := true;
     started_receivers := started_receivers th;
     thread_deleteLater := thread_deleteLater th;
     objectName := objectName th;
     thread_destroyed := thread_destroyed th |}.

(** [thread.quit()]: asks the thread's event loop to return. *)
Definition thread_quit (site : Site) (t : nat) : M unit :=
  call site tt;;
  alter_thread asked_to_quit t.

Definition exited (th : QThread) : QThread :=
  {| isRunning := false; quit_requested := quit_requested th;
     started_receivers := started_receivers th;
     thread_deleteLater := thread_deleteLater th;
     objectName := objectName th;
     thread_destroyed := thread_destroyed th |}.

(** [thread.wait(msecs)]: true when the thread is not running or leaves
    its loop before the time is up. *)
Definition thread_wait (site : Site) (t : nat) : M bool :=
  call site tt;;
  gets (fun s => match threads s !! t with Some th => isRunning th | None => false end)
  ≫= fun running : bool =>
  if running then
    if exits_in_time env then alter_thread exited t;; mret true
    else mret false
  else mret true.

(** [thread.setObjectName(name)] *)
Definition thread_setObjectName (site : Site) (t : nat) (name : string) : M unit :=
  call site tt;;
  alter_thread (fun th =>
    {| isRunning := isRunning th; quit_requested := quit_requested th;
       started_receivers := started_receivers th;
       thread_deleteLater := thread_deleteLater th;
       objectName := name;
       thread_destroyed := thread_destroyed th |}) t.

(** [thread.started.connect(slot)] and [thread.started.disconnect()] *)
Definition set_started_receivers (n : nat) (th : QThread) : QThread :=
  {| isRunning := isRunning th; quit_requested := quit_requested th;
     started_receivers := n;
     thread_deleteLater := thread_deleteLater th;
     objectName := objectName th;
     thread_destroyed := thread_destroyed th |}.

Definition started_connect (site : Site) (t : nat) : M unit :=
  call site tt;;
  alter_thread (fun th => set_started_receivers (S (started_receivers th)) th) t.

Definition started_disconnect (site : Site) (t : nat) : M unit :=
  call site tt;;
  alter_thread (set_started_receivers 0) t.

(** [thread.deleteLater()] *)
Definition thread_delete (site : Site) (t : nat) : M unit :=
  call site tt;;
  alter_thread (fun th =>
    {| isRunning := isRunning th; quit_requested := quit_requested th;
       started_receivers := started_receivers th;
       thread_deleteLater := true;
       objectName := objectName th;
       thread_destroyed := thread_destroyed th |}) t.

(** [worker.moveToThread(thread)] *)
Definition worker_moveToThread (site : Site) (w t : nat) : M unit :=
  call site tt;;
  alter_worker (fun wo =>
    {| worker := worker wo; worker_thread := Some t;
       finished_receivers := finished_receivers wo;
       worker_deleteLater := worker_deleteLater wo;
       worker_destroyed := worker_destroyed wo |}) w.

(** [worker.finished.connect(slot)] and [worker.finished.disconnect()] *)
Definition set_finished_receivers (n : nat) (wo : WorkerObject) : WorkerObject :=
  {| worker := worker wo; worker_thread := worker_thread wo;
     finished_receivers := n;
     worker_deleteLater := worker_deleteLater wo;
     worker_destroyed := worker_destroyed wo |}.

Definition finished_connect (site : Site) (w : nat) : M unit :=
  call site tt;;
  alter_worker (fun wo => set_finished_receivers (S (finished_receivers wo)) wo) w.

Definition finished_disconnect (site : Site) (w : nat) : M unit :=
  call site tt;;
  alter_worker (set_finished_receivers 0) w.

(** [worker.deleteLater()] *)
Definition worker_delete (site : Site) (w : nat) : M unit :=
  call site tt;;
  alter_worker (fun wo =>
    {| worker := worker wo; worker_thread := worker_thread wo;
       finished_receivers := finished_receivers wo;
       worker_deleteLater := true;
       worker_destroyed := worker_destroyed wo |}) w.

(** *** Objects that lose their last reference

    The class attributes hold the only references to the worker and the
    thread of a task, so assigning to one of them destroys the object it
    referred to.  A worker just goes.  A thread that still runs must
    not be destroyed: Qt then ends the process with the fatal error
    QThread: Destroyed while thread is still running. *)

Definition gone_worker (wo : WorkerObject) : WorkerObject :=
  {| worker := worker wo; worker_thread := worker_thread wo;
     finished_receivers := finished_receivers wo;
     worker_deleteLater := worker_deleteLater wo;
     worker_destroyed := true |}.

Definition gone_thread (th : QThread) : QThread :=
  {| isRunning := isRunning th; quit_requested := quit_requested th;
     started_receivers := started_receivers th;
     thread_deleteLater := thread_deleteLater th;
     objectName := objectName th;
     thread_destroyed := true |}.

(** Whether the thread object referred to, if any, still runs. *)
Definition still_running (current : option nat) (l : list QThread) : bool :=
  match current with
  | Some t =>
      match l !! t with
      | Some th => isRunning th
      | None => false
      end
  | None => false
  end.

Definition drop_worker (old : option nat) (l : list WorkerObject) : list WorkerObject :=
  match old with
  | Some w => alter gone_worker w l
  | None => l
  end.

Definition drop_thread (old : option nat) (l : list QThread) : list QThread :=
  match old with
  | Some t => alter gone_thread t l
  | None => l
  end.

(** [Canvasviewer._current_worker = v] *)
Definition assign_current_worker (v : option nat) : M unit :=
  gets _current_worker ≫= fun old : option nat =>
  modify (set_current_worker v);;
  modify (fun s => set_workers (drop_worker old (workers s)) s).

(** [Canvasviewer._current_thread = v]; when dropping the old reference
    ends the process, the state is handed on as it was before the
    assignment. *)
Definition assign_current_thread (v : option nat) : M unit :=
  gets _current_thread ≫= fun old : option nat =>
  gets (fun s => still_running old (threads s)) ≫= fun doomed : bool =>
  if doomed then abort
  else
    modify (set_current_thread v);;
    modify (fun s => set_threads (drop_thread old (threads s)) s).

End Toolkit.

(** *** Methods of [Canvasviewer] *)

Section Methods.

Variable cfg : ConfigT.
Variable env : Env.

(** [self.devicePixelRatioF() if Config.ENABLE_DPI_CORRECTION else 1.0] *)
Definition dpi_scale : float :=
  if ENABLE_DPI_CORRECTION cfg then devicePixelRatioF env else float_of_Z 1.

(** [get_thumbnail_size]: the logical size of the thumbnail, as a pair. *)
Definition get_thumbnail_size : Result (Z * Z) :=
  let label_size := (label_width env, label_height env) in
  margin ← Py.min [Int (margin cfg); Int 10];
  margin2 ← Py.mul margin (Int 2);
  inner_width ← Py.sub (Int (label_width env)) margin2;
  available_width ← Py.max [Int 1; inner_width];
  inner_height ← Py.sub (Int (label_height env)) margin2;
  available_height ← Py.max [Int 1; inner_height];
  let dpi_scale := Float dpi_scale in
  match activeDocument env with
  | None =>
      qw ← Py.truediv available_width dpi_scale;
      mw ← Py.min [qw];
      w ← Py.int mw;
      qh ← Py.truediv available_height dpi_scale;
      mh ← Py.min [qh];
      h ← Py.int mh;
      Ok (w, h)
  | Some doc =>
      canvas_width ← Py.mul (Int (doc_width doc)) dpi_scale;
      canvas_height ← Py.mul (Int (doc_height doc)) dpi_scale;
      canvas_ratio ← Py.truediv (Int (doc_width doc)) (Int (doc_height doc));
      label_ratio ← Py.truediv (Int (fst label_size)) (Int (snd label_size));
      Py.gt canvas_ratio label_ratio ≫= fun wider : bool =>
      (if wider then
         width ← Py.mul (Int (fst label_size)) dpi_scale;
         qh ← Py.truediv width canvas_ratio;
         height ← Py.int qh;
         Ok (width, Int height)
       else
         height ← Py.mul (Int (snd label_size)) dpi_scale;
         pw ← Py.mul height canvas_ratio;
         width ← Py.int pw;
         Ok (Int width, height))
      ≫= fun size : Val * Val =>
      qw ← Py.truediv (fst size) dpi_scale;
      w ← Py.int qw;
      qh ← Py.truediv (snd size) dpi_scale;
      h ← Py.int qh;
      Ok (w, h)
  end.

(** [self.thumbnail_label.setText(text)] *)
Definition setText (text : string) : M unit :=
  modify (set_thumbnail_label (Text text)).

(** The [if Canvasviewer._is_thread_running:] block of
    [refresh_thumbnail].  The answer tells whether the method goes on
    ([false] stands for its two [return]s). *)
Definition stop_previous : M bool :=
  gets _is_thread_running ≫= fun running : bool =>
  if running then
    try_except
      (gets _current_thread ≫= fun current : option nat =>
       match current with
       | None => mret true
       | Some t =>
           thread_isRunning env stop_isRunning t ≫= fun alive : bool =>
           if alive then
             thread_quit env stop_quit t;;
             thread_wait env stop_wait t ≫= fun done : bool =>
             if negb done then
               print (Line "警告: 线程未能及时退出");;
               modify (set_is_thread_running false);;
               mret false
             else mret true
           else mret true
       end)
      (fun e =>
         print (LineExn "停止线程错误: " e);;
         modify (set_is_thread_running false);;
         mret false)
  else mret true.

(** The final [try] block of [refresh_thumbnail]. *)
Definition start_worker (projection : Qt.QImage) (thumb_width thumb_height : Z)
    : M unit :=
  try_except
    (w ← new_Worker env start_Worker
           {| projection := projection; width := thumb_width; height := thumb_height |};
     assign_current_worker (Some w);;
     t ← new_QThread env start_QThread;
     assign_current_thread (Some t);;
     worker_moveToThread env start_moveToThread w t;;
     started_connect env start_connect_started t;;
     finished_connect env start_connect_finished w;;
     modify (set_is_thread_running true);;
     thread_setObjectName env start_setObjectName t "ThumbnailWorkerThread";;
     thread_start env start_start t)
    (fun e =>
       print (LineExn "创建线程错误: " e);;
       modify (set_is_thread_running false)).

Definition refresh_thumbnail : M unit :=
  match activeDocument env with
  | None => setText "没有打开的文档"
  | Some doc =>
      stop_previous ≫= fun proceed : bool =>
      if proceed then
        let projection :=
          Qt.setDevicePixelRatio
            (doc_projection doc 0 0 (doc_width doc) (doc_height doc)) dpi_scale in
        lift get_thumbnail_size ≫= fun size : Z * Z =>
        let '(thumb_width, thumb_height) := size in
        start_worker projection thumb_width thumb_height
      else skip
  end.

Definition update_thumbnail (image : Qt.QImage) : M unit :=
  try_except
    (call env deliver_isNull (Qt.isNull image) ≫= fun null : bool =>
     if negb null then
       pixmap ← call env deliver_fromImage image;
       call env deliver_setPixmap tt;;
       modify (set_thumbnail_label (Pixmap pixmap));;
       modify (set_current_thumbnail (Some image))
     else skip)
    (fun e => print (LineExn "Update thumbnail error: " e)).

(** [signal.receivers()]: a bound signal has [connect], [disconnect]
    and [emit] and no attribute [receivers], so that the lookup raises. *)
Definition signal_receivers : M nat := lift (Raise AttributeError).

(** The two inner [try] blocks of [on_worker_finished]. *)
Definition disconnect_started (t : nat) : M unit :=
  try_except
    (signal_receivers ≫= fun n : nat =>
     if (0 <? n)%nat then started_disconnect env clean_started_disconnect t
     else skip)
    (fun e => print (LineExn "断开线程started信号错误: " e)).

Definition disconnect_finished (w : nat) : M unit :=
  try_except
    (signal_receivers ≫= fun n : nat =>
     if (0 <? n)%nat then finished_disconnect env clean_finished_disconnect w
     else skip)
    (fun e => print (LineExn "断开worker finished信号错误: " e)).

(** The outer [try] body of [on_worker_finished]. *)
Definition release_thread : M unit :=
  gets _current_thread ≫= fun current_thread : option nat =>
  gets _current_worker ≫= fun current_worker : option nat =>
  match current_thread, current_worker with
  | Some t, Some w =>
      disconnect_started t;;
      disconnect_finished w;;
      thread_quit env clean_quit t;;
      thread_wait env clean_wait t ≫= fun done : bool =>
      (if negb done then print (Line "警告: 线程未能在超时时间内结束") else skip);;
      worker_delete env clean_worker_deleteLater w;;
      thread_delete env clean_thread_deleteLater t
  | _, _ => skip
  end.

(** The [finally] block of [on_worker_finished].  Its second
    assignment destroys the thread object; when the thread still runs
    the process ends there, and the state is handed on as it was when
    the block was entered. *)
Definition reset_references : M unit :=
  gets _current_thread ≫= fun current_thread : option nat =>
  gets (fun s => still_running current_thread (threads s)) ≫= fun doomed : bool =>
  if doomed then abort
  else
    assign_current_worker None;;
    assign_current_thread None;;
    modify (set_is_thread_running false).

Definition on_worker_finished (image : Qt.QImage) : M unit :=
  update_thumbnail image;;
  try_finally
    (try_except release_thread
       (fun e =>
          print (LineExn "清理线程资源错误: " e);;
          setText "没有打开的文档"))
    reset_references.

Definition update_thumbnail_display : M unit :=
  gets _current_thumbnail ≫= fun current : option Qt.QImage =>
  match current with
  | None => skip
  | Some thumbnail =>
      lift get_thumbnail_size ≫= fun size : Z * Z =>
      let '(thumb_width, thumb_height) := size in
      w ← lift (Qt.c_int thumb_width);
      h ← lift (Qt.c_int thumb_height);
      let scaled_image :=
        Qt.scaled thumbnail w h Qt.KeepAspectRatio Qt.SmoothTransformation in
      modify (set_thumbnail_label (Pixmap scaled_image))
  end.

Definition pressed (buttons button : Z) : bool := negb (Z.land buttons button =? 0).

Definition check_state : M unit :=
  let mouse_buttons := mouseButtons env in
  let is_left_pressed := pressed mouse_buttons Qt.LeftButton in
  let is_right_pressed := pressed mouse_buttons Qt.RightButton in
  let is_middle_pressed := pressed mouse_buttons Qt.MiddleButton in
  gets state ≫= fun st : Z =>
  if st =? 0 then
    if negb is_left_pressed && negb is_right_pressed && negb is_middle_pressed then
      modify (set_state 1);;
      gets _is_thread_running ≫= fun running : bool =>
      gets idle_state ≫= fun idle : bool =>
      (if negb running && negb idle then refresh_thumbnail else skip);;
      modify (set_idle_timer true)
    else skip
  else if st =? 1 then
    if is_left_pressed || is_right_pressed || is_middle_pressed then
      modify (set_state 0);;
      (gets idle_state ≫= fun idle : bool =>
       if idle then modify (set_idle_state false) else skip);;
      modify (set_idle_timer false)
    else skip
  else skip.

Definition enter_idle_state : M unit :=
  gets idle_state ≫= fun idle : bool =>
  if negb idle then
    modify (set_idle_state true);;
    modify (set_idle_signal_timer true)
  else skip.

Definition send_idle_signal : M unit :=
  gets idle_state ≫= fun idle : bool =>
  if idle then
    gets _is_thread_running ≫= fun running : bool =>
    if negb running then refresh_thumbnail else skip
  else modify (set_idle_signal_timer false).

Definition canvasChanged (canvas : unit) : M unit := refresh_thumbnail.

End Methods.

(** ** The event loop

    Everything the panel does happens in callbacks run one at a time by
    the GUI thread. *)

Inductive Event :=
(* initUI asks for the first thumbnail *)
| panel_created (env : Env)
(* self._timer fires *)
| state_timer_timeout (env : Env)
(* self.idle_timer fires *)
| idle_timer_timeout
(* self.idle_signal_timer fires *)
| idle_signal_timer_timeout (env : Env)
(* the host reports another canvas *)
| canvas_changed (env : Env)
(* a worker's finished signal is delivered *)
| worker_finished (image : Qt.QImage) (env : Env)
(* a thread that was asked to quit leaves its event loop *)
| thread_exits (t : nat).

Definition handler (cfg : ConfigT) (ev : Event) : M unit :=
  match ev with
  | panel_created env => refresh_thumbnail cfg env
  | state_timer_timeout env => check_state cfg env
  | idle_timer_timeout =>
      gets idle_timer ≫= fun active : bool =>
      if active then enter_idle_state else skip
  | idle_signal_timer_timeout env =>
      gets idle_signal_timer ≫= fun active : bool =>
      if active then send_idle_signal cfg env else skip
  | canvas_changed env => canvasChanged cfg env tt
  | worker_finished image env => on_worker_finished env image
  | thread_exits t =>
      modify (fun s =>
        set_threads
          (alter (fun th => if quit_requested th then exited th else th) t
             (threads s)) s)
  end.

(** The state after a callback, whether it returned or raised.  After
    a callback that ends the process no other comes; the runs that can
    happen are singled out by [survives], below. *)
Definition step (cfg : ConfigT) (s : State) (ev : Event) : State :=
  snd (handler cfg ev s).

Definition run (cfg : ConfigT) (evs : list Event) (s : State) : State :=
  fold_left (step cfg) evs s.


(** * Notions used by the properties *)

(** ** What a statement keeps, preserves and ignores *)

(** [keeps f m]: running [m] leaves the observation [f] of the state as
    it was, whether [m] returns or raises. *)
Definition keeps {A B} (f : State -> A) (m : M B) : Prop :=
  forall s, f (snd (m s)) = f s.

(** [preserves P m]: running [m] from a state where [P] holds ends,
    returning or raising, in a state where [P] holds. *)
Definition preserves {A} (P : State -> Prop) (m : M A) : Prop :=
  forall s, P s -> P (snd (m s)).

(** [ignores g m]: the change [g] of the state is invisible to [m] and
    untouched by it: run from a changed state, [m] gives the same result
    and ends in the state it would have reached, changed the same way. *)
Definition ignores {A} (g : State -> State) (m : M A) : Prop :=
  forall s, m (g s) = (fst (m s), g (snd (m s))).

(** ** The interaction state machine *)

Definition any_pressed (buttons : Z) : bool :=
  pressed buttons Qt.LeftButton || pressed buttons Qt.RightButton
  || pressed buttons Qt.MiddleButton.

(** The button state seen by the latest state check of a run. *)
Fixpoint last_buttons (evs : list Event) (seen : option Z) : option Z :=
  match evs with
  | [] => seen
  | state_timer_timeout env :: evs' => last_buttons evs' (Some (mouseButtons env))
  | _ :: evs' => last_buttons evs' seen
  end.

Definition observe (seen : option Z) (ev : Event) : option Z :=
  match ev with
  | state_timer_timeout env => Some (mouseButtons env)
  | _ => seen
  end.

(** The value [self.state] has when the buttons were last seen as [seen]. *)
Definition state_for (seen : option Z) : Z :=
  match seen with
  | Some buttons => if any_pressed buttons then 0 else 1
  | None => 0
  end.

(** What holds of the interaction flags between callbacks, given the
    button state the latest check has seen. *)
Record tracks (seen : option Z) (s : State) : Prop := {
  tracks_state : state s = state_for seen;
  tracks_idle_state : idle_state s = true -> state s = 1;
  tracks_idle_timer : idle_timer s = true -> state s = 1;
}.

(** Overwrites the two fields the interaction gating reads. *)
Definition with_gating (st : Z) (idle : bool) (s : State) : State :=
  set_state st (set_idle_state idle s).

(** ** The scaler *)

(** [int(logical * dpi_scale)]: a logical length in physical pixels. *)
Definition physical (logical : Z) (dpi_scale : float) : Result Z :=
  scaled ← Py.mul (Int logical) (Float dpi_scale);
  Py.int scaled.

(** The three resamplings of the hybrid pipeline, applied to [source]
    for a physical target of [physical_width] by [physical_height],
    and the tag put on the result. *)
Definition hybrid_pipeline (source : Qt.QImage) (physical_width physical_height : Z)
    (dpi_scale : float) : Qt.QImage :=
  let smoothed :=
    Qt.scaled source (Qt.width source * 2) (Qt.height source * 2)
      Qt.KeepAspectRatio Qt.SmoothTransformation in
  let fast_scaled :=
    Qt.scaled smoothed (physical_width * 2) (physical_height * 2)
      Qt.KeepAspectRatio Qt.FastTransformation in
  let final_scaled :=
    Qt.scaled fast_scaled physical_width physical_height
      Qt.KeepAspectRatio Qt.SmoothTransformation in
  Qt.setDevicePixelRatio final_scaled dpi_scale.

(** The non-hybrid mode as the comment on [Config.use_hybrid_scaling]
    words it: one smooth resampling straight to the physical target. *)
Definition single_smooth_pass (source : Qt.QImage) (physical_width physical_height : Z)
    (dpi_scale : float) : Qt.QImage :=
  Qt.setDevicePixelRatio
    (Qt.scaled source physical_width physical_height
       Qt.KeepAspectRatio Qt.SmoothTransformation)
    dpi_scale.

(** The size [Qt.scaled] gives an image of [W] by [H] pixels asked to
    fit [bw] by [bh] with its aspect ratio kept. *)
Definition fit (W H bw bh : Z) : Z * Z :=
  let '(nw, nh) := Qt.size_scaled W H bw bh Qt.KeepAspectRatio in
  (Z.max nw 1, Z.max nh 1).

(** An image of [w] by [h] pixels has the proportions of one of [W] by
    [H] to within one pixel: one of its sides is less than a pixel away
    from the exactly proportional length for the other side, that is
    [|w - h * W / H| < 1] or [|h - w * H / W| < 1]. *)
Definition within_one_pixel (W H w h : Z) : Prop :=
  Z.abs (w * H - h * W) < H \/ Z.abs (w * H - h * W) < W.

(** The capture [refresh_thumbnail] takes of a document. *)
Definition capture (cfg : ConfigT) (env : Env) (doc : Document) : Qt.QImage :=
  Qt.setDevicePixelRatio
    (doc_projection doc 0 0 (doc_width doc) (doc_height doc)) (dpi_scale cfg env).

(** ** Background tasks *)

(** Which of the threads created so far are running, by reference. *)
Definition alive (s : State) : list bool := isRunning <$> threads s.

(** Thread [t] is a background task in existence: it was started and has
    not left its event loop. *)
Definition running (s : State) (t : nat) : Prop := alive s !! t = Some true.

Definition quiet (s : State) : Prop := forall t, ~ running s t.

Definition at_most_one_running (s : State) : Prop :=
  forall t1 t2, running s t1 -> running s t2 -> t1 = t2.



(** The toolkit cooperates: a thread asked to quit leaves its loop
    within the bounded wait, and asking it raises nothing. *)
Record cooperative (env : Env) : Prop := {
  coop_exits : exits_in_time env = true;
  coop_stop_isRunning : faults env stop_isRunning = None;
  coop_stop_quit : faults env stop_quit = None;
  coop_stop_wait : faults env stop_wait = None;
  coop_clean_quit : faults env clean_quit = None;
  coop_clean_wait : faults env clean_wait = None;
}.

(** Every running thread is the one the class attributes refer to, and
    is accounted for by the in-flight flag. *)
Record tracked (s : State) : Prop := {
  tracked_thread : forall t, running s t -> _current_thread s = Some t;
  tracked_flag : forall t, running s t -> _is_thread_running s = true;
  tracked_worker : forall t, running s t -> is_Some (_current_worker s);
}.

(** What [tracked] reads of a state. *)
Definition core (s : State) : list bool * option nat * bool * option nat :=
  (alive s, _current_thread s, _is_thread_running s, _current_worker s).

(** A bounded wait for the thread the class refers to is about to time
    out: a task is in flight, its thread is running, the calls that ask
    it to stop raise nothing, and it does not leave its loop in time. *)
Record stop_times_out (env : Env) (s : State) (t : nat) : Prop := {
  times_out_flag : _is_thread_running s = true;
  times_out_thread : _current_thread s = Some t;
  times_out_running : running s t;
  times_out_isRunning : faults env stop_isRunning = None;
  times_out_quit : faults env stop_quit = None;
  times_out_wait : faults env stop_wait = None;
  times_out_late : exits_in_time env = false;
}.

(** The state a refresh leaves behind when the wait times out. *)
Definition after_timeout (s : State) (t : nat) : State :=
  set_is_thread_running false
    (set_printed (printed s ++ [Line "警告: 线程未能及时退出"])
       (set_threads (alter asked_to_quit t (threads s)) s)).



(** ** Worker completion *)






(** ** Sample inputs *)

Definition captured (w h : Z) (content : nat) : Qt.QImage :=
  Some {| Qt.img_width := w; Qt.img_height := h;
          Qt.img_ratio := float_of_Z 1; Qt.img_pixels := Qt.Captured content |}.

Definition full_hd : Document :=
  {| doc_width := 1920; doc_height := 1080; doc_content := 0 |}.

Definition other_document : Document :=
  {| doc_width := 800; doc_height := 600; doc_content := 1 |}.

Definition sample_worker : Worker :=
  {| projection := captured 1920 1080 0; width := 320; height := 180 |}.

(** What [sample_worker] is expected to hand to [finished]. *)
Definition sample_thumbnail : Qt.QImage :=
  Some {| Qt.img_width := 320; Qt.img_height := 180;
          Qt.img_ratio := float_of_Z 1;
          Qt.img_pixels :=
            Qt.Resampled Qt.SmoothTransformation 320 180
              (Qt.Resampled Qt.FastTransformation 640 360
                 (Qt.Resampled Qt.SmoothTransformation 3840 2160 (Qt.Captured 0))) |}.

(** A worker whose capture carries a ratio that is not a number. *)
Definition nan_worker : Worker :=
  {| projection := Qt.setDevicePixelRatio (captured 1920 1080 0) S754_nan;
     width := 320; height := 180 |}.

(** A tall capture scaled into a 10 by 100 target. *)
Definition tall_worker : Worker :=
  {| projection := captured 100 910 0; width := 10; height := 100 |}.

(** A 320 by 180 label on a display of ratio 1, nothing raising, every
    thread leaving its loop in time, no button pressed. *)
Definition env_with (document : option Document) : Env := {|
  faults := no_faults;
  activeDocument := document;
  devicePixelRatioF := float_of_Z 1;
  label_width := 320;
  label_height := 180;
  exits_in_time := true;
  mouseButtons := 0;
|}.

Definition quiet_env : Env := env_with (Some full_hd).

Definition no_document_env : Env := env_with None.

(** [quiet_env] with the left button held down. *)
Definition pressed_env : Env := {|
  faults := no_faults;
  activeDocument := Some full_hd;
  devicePixelRatioF := float_of_Z 1;
  label_width := 320;
  label_height := 180;
  exits_in_time := true;
  mouseButtons := Qt.LeftButton;
|}.

(** [quiet_env], but a thread asked to quit does not leave its loop
    within the bounded wait. *)
Definition slow_env : Env := {|
  faults := no_faults;
  activeDocument := Some full_hd;
  devicePixelRatioF := float_of_Z 1;
  label_width := 320;
  label_height := 180;
  exits_in_time := false;
  mouseButtons := 0;
|}.

(** [slow_env] once the host has switched to [other_document]. *)
Definition replaced_slow_env : Env := {|
  faults := no_faults;
  activeDocument := Some other_document;
  devicePixelRatioF := float_of_Z 1;
  label_width := 320;
  label_height := 180;
  exits_in_time := false;
  mouseButtons := 0;
|}.



(** The panel with its first task in flight: [initUI] has asked for the
    first thumbnail of [full_hd] and the worker has not reported yet. *)
Definition busy : State := run Config [panel_created quiet_env] init.


(** ** Further notions *)

(** Infinities and NaN. *)
Definition non_finite (f : float) : bool :=
  match f with
  | S754_infinity _ | S754_nan => true
  | _ => false
  end.

(** The C [int] range of the toolkit's and the host's pixel counts. *)
Definition c_int_range (z : Z) : Prop := - 2 ^ 31 <= z < 2 ^ 31.

(** A label that has collapsed to zero height. *)
Definition flat_label_env : Env := {|
  faults := no_faults;
  activeDocument := Some full_hd;
  devicePixelRatioF := float_of_Z 1;
  label_width := 320;
  label_height := 0;
  exits_in_time := true;
  mouseButtons := 0;
|}.

(** A worker asked for a thumbnail of no width. *)
Definition empty_target_worker : Worker :=
  {| projection := captured 1920 1080 0; width := 0; height := 180 |}.

(** ** Handles of the task in flight *)

(** To which thread each worker created so far was moved. *)
Definition links (s : State) : list (option nat) := worker_thread <$> workers s.

(** The class attributes refer to objects that exist and, while the
    in-flight flag is up, to a worker and the thread it was moved to. *)
Record handles_ok (s : State) : Prop := {
  thread_ref_valid : forall t, _current_thread s = Some t -> (t < length (threads s))%nat;
  worker_ref_valid : forall w, _current_worker s = Some w -> (w < length (workers s))%nat;
  flagged_linked :
    _is_thread_running s = true ->
    exists t w,
      _current_thread s = Some t /\ _current_worker s = Some w /\
      links s !! w = Some (Some t);
}.

(** What [handles_ok] reads of a state. *)
Definition hcore (s : State) : option nat * option nat * bool * nat * list (option nat) :=
  (_current_thread s, _current_worker s, _is_thread_running s,
   length (threads s), links s).

(** ** What the label shows *)

(** The cached thumbnail is never the null image, and a pixmap on the
    label is the cached thumbnail. *)
Record shown_ok (s : State) : Prop := {
  cache_not_null :
    forall image, _current_thumbnail s = Some image -> Qt.isNull image = false;
  pixmap_is_cache :
    forall image, thumbnail_label s = Pixmap image -> _current_thumbnail s = Some image;
}.

Definition shown (s : State) : LabelContent * option Qt.QImage :=
  (thumbnail_label s, _current_thumbnail s).

(** ** What the refresh machinery owns *)

(** Everything of the panel but the interaction flags, the timers and
    the inner state of the threads. *)
Definition panel (s : State) :=
  (_is_thread_running s, _current_thread s, _current_worker s,
   _current_thumbnail s, thumbnail_label s, workers s, length (threads s),
   printed s).

(** Callbacks that can come while a button is held: state checks that
    see a button pressed, the two idle timers, threads leaving. *)
Definition while_held (ev : Event) : Prop :=
  match ev with
  | state_timer_timeout env => any_pressed (mouseButtons env) = true
  | idle_timer_timeout | idle_signal_timer_timeout _ | thread_exits _ => True
  | panel_created _ | canvas_changed _ | worker_finished _ _ => False
  end.

(** The toolkit calls of the [try] block that starts a task. *)
Definition start_sites : list Site :=
  [start_Worker; start_QThread; start_moveToThread; start_connect_started;
   start_connect_finished; start_setObjectName; start_start].

(** ** Where exceptions come from *)

(** The errors of arithmetic on numbers. *)
Definition arithmetic (e : Exn) : bool :=
  match e with
  | ZeroDivisionError | OverflowError | ValueError => true
  | TypeError | AttributeError | RuntimeError => false
  end.


(** An evaluation that gives a value with property [P] or raises an
    error of arithmetic. *)
Definition numeric {A} (P : A -> Prop) (r : Result A) : Prop :=
  match r with
  | Ok a => P a
  | Raise e => arithmetic e = true
  | Abort => False
  end.


(** What the host and the toolkit answer to a callback that may ask
    for a thumbnail. *)
Definition refresh_env (ev : Event) : option Env :=
  match ev with
  | panel_created env | state_timer_timeout env | idle_signal_timer_timeout env
  | canvas_changed env => Some env
  | idle_timer_timeout | worker_finished _ _ | thread_exits _ => None
  end.

(** [quiet_env], but the new thread cannot be started. *)
Definition unstartable_env : Env := {|
  faults := fun site =>
    match site with
    | start_start => Some RuntimeError
    | _ => None
    end;
  activeDocument := Some full_hd;
  devicePixelRatioF := float_of_Z 1;
  label_width := 320;
  label_height := 180;
  exits_in_time := true;
  mouseButtons := 0;
|}.

(** The toolkit raises [e] while the previous thread is being stopped:
    at the first of [isRunning], [quit] and [wait] that raises. *)
Inductive stop_raises (env : Env) (e : Exn) : Prop :=
| raises_at_isRunning :
    faults env stop_isRunning = Some e -> stop_raises env e
| raises_at_quit :
    faults env stop_isRunning = None -> faults env stop_quit = Some e ->
    stop_raises env e
| raises_at_wait :
    faults env stop_isRunning = None -> faults env stop_quit = None ->
    faults env stop_wait = Some e -> stop_raises env e.

(** [quiet_env], but a thread cannot be asked to quit. *)
Definition unstoppable_env : Env := {|
  faults := fun site =>
    match site with
    | stop_quit => Some RuntimeError
    | _ => None
    end;
  activeDocument := Some full_hd;
  devicePixelRatioF := float_of_Z 1;
  label_width := 320;
  label_height := 180;
  exits_in_time := true;
  mouseButtons := 0;
|}.

(** A callback that finds no document open, if it asks for one. *)
Definition without_document (ev : Event) : Prop :=
  match refresh_env ev with
  | Some env => activeDocument env = None
  | None => True
  end.

(** No task was ever created and none is referred to. *)
Definition no_task (s : State) : Prop :=
  threads s = [] /\ workers s = [] /\ _is_thread_running s = false /\
  _current_thread s = None /\ _current_worker s = None.

(** [Config] with a layout margin of eight pixels. *)
Definition wide_margin_config : ConfigT := {|
  min_width := 320;
  min_height := 180;
  margin := 8;
  screen_ratio := 2;
  ENABLE_DPI_CORRECTION := true;
  thumbnail_min_size := 140;
  thumbnail_upscale_factor := 2;
  use_hybrid_scaling := true;
  state_check_interval := 100;
  idle_check_interval := 300;
  idle_refresh_interval := 400;
|}.

(** * Properties *)

(** ** Running statements and frame conditions *)

Lemma run_bind {A B} (m : M A) (k : A -> M B) s :
  (m ≫= k) s =
  match m s with
  | (Ok a, s') => k a s'
  | (Raise e, s') => (Raise e, s')
  | (Abort, s') => (Abort, s')
  end.
Proof. reflexivity. Qed.

Create HintDb keeps discriminated.

Lemma keeps_ret {A B} (f : State -> A) (b : B) : keeps f (mret b).
Proof. now intros s. Qed.

Lemma keeps_skip {A} (f : State -> A) : keeps f skip.
Proof. now intros s. Qed.

Lemma keeps_lift {A B} (f : State -> A) (r : Result B) : keeps f (lift r).
Proof. now intros s. Qed.

Lemma keeps_gets {A B} (f : State -> A) (g : State -> B) : keeps f (gets g).
Proof. now intros s. Qed.

Lemma keeps_abort {A B} (f : State -> A) : keeps f (@abort B).
Proof. now intros s. Qed.

Lemma keeps_modify {A} (f : State -> A) (g : State -> State) :
  (forall s, f (g s) = f s) -> keeps f (modify g).
Proof. intros H s. apply H. Qed.

Lemma keeps_bind {A B C} (f : State -> A) (m : M B) (k : B -> M C) :
  keeps f m -> (forall b, keeps f (k b)) -> keeps f (m ≫= k).
Proof.
  intros Hm Hk s. rewrite run_bind. specialize (Hm s).
  destruct (m s) as [[b|e|] s']; simpl in *; [|assumption..].
  now rewrite Hk.
Qed.

Lemma keeps_try_except {A B} (f : State -> A) (body : M B) handler :
  keeps f body -> (forall e, keeps f (handler e)) -> keeps f (try_except body handler).
Proof.
  intros Hb Hh s. unfold try_except. specialize (Hb s).
  destruct (body s) as [[b|e|] s']; simpl in *; [assumption| |assumption].
  now rewrite Hh.
Qed.

Lemma keeps_try_finally {A B} (f : State -> A) (body : M B) final :
  keeps f body -> keeps f final -> keeps f (try_finally body final).
Proof.
  intros Hb Hf s. unfold try_finally. specialize (Hb s).
  destruct (body s) as [r s']; simpl in *. specialize (Hf s').
  destruct r as [b|e0|]; [..|assumption];
    destruct (final s') as [[[]|e|] s'']; simpl in *; congruence.
Qed.

Lemma keeps_if {A B} (f : State -> A) (c : bool) (m1 m2 : M B) :
  keeps f m1 -> keeps f m2 -> keeps f (if c then m1 else m2).
Proof. now destruct c. Qed.

Lemma keeps_call {A B} (f : State -> A) env site (b : B) : keeps f (call env site b).
Proof. apply keeps_lift. Qed.

#[global] Hint Resolve keeps_ret keeps_skip keeps_lift keeps_gets keeps_call
  keeps_bind keeps_try_except keeps_try_finally keeps_if : keeps.

Create HintDb methods discriminated.

#[global] Hint Unfold print setText alter_thread alter_worker new_QThread new_Worker
  thread_isRunning thread_start thread_quit thread_wait thread_setObjectName
  started_connect started_disconnect thread_delete worker_moveToThread
  finished_connect finished_disconnect worker_delete signal_receivers
  assign_current_worker assign_current_thread : methods.

#[global] Hint Unfold stop_previous start_worker refresh_thumbnail update_thumbnail
  disconnect_started disconnect_finished release_thread reset_references on_worker_finished update_thumbnail_display
  enter_idle_state send_idle_signal canvasChanged : methods.

(** Closes the side condition of an assignment; refined further down. *)
Ltac keeps_side := reflexivity.

(** Frame conditions of straight-line statements follow their syntax. *)
Ltac keeps_step :=
  lazymatch goal with
  | |- keeps _ (mbind _ _) => apply keeps_bind; [|intros ?]
  | |- keeps _ (try_except _ _) => apply keeps_try_except; [|intros ?]
  | |- keeps _ (try_finally _ _) => apply keeps_try_finally
  | |- keeps _ (modify _) => apply keeps_modify; intros ?; keeps_side
  | |- keeps _ (mret _) => apply keeps_ret
  | |- keeps _ skip => apply keeps_skip
  | |- keeps _ (lift _) => apply keeps_lift
  | |- keeps _ (gets _) => apply keeps_gets
  | |- keeps _ abort => apply keeps_abort
  | |- keeps _ (call _ _ _) => apply keeps_call
  | |- keeps _ (if _ then _ else _) => apply keeps_if
  | |- keeps _ (match ?x with _ => _ end) => destruct x
  end.

Ltac keeps_auto := repeat first [keeps_step | progress autounfold with methods].

Lemma refresh_thumbnail_keeps_state cfg env : keeps state (refresh_thumbnail cfg env).
Proof. keeps_auto. Qed.

Lemma refresh_thumbnail_keeps_idle_state cfg env :
  keeps idle_state (refresh_thumbnail cfg env).
Proof. keeps_auto. Qed.

Lemma refresh_thumbnail_keeps_idle_timer cfg env :
  keeps idle_timer (refresh_thumbnail cfg env).
Proof. keeps_auto. Qed.

Lemma on_worker_finished_keeps_state env image :
  keeps state (on_worker_finished env image).
Proof. keeps_auto. Qed.

Lemma on_worker_finished_keeps_idle_state env image :
  keeps idle_state (on_worker_finished env image).
Proof. keeps_auto. Qed.

Lemma on_worker_finished_keeps_idle_timer env image :
  keeps idle_timer (on_worker_finished env image).
Proof. keeps_auto. Qed.

Lemma send_idle_signal_keeps_state cfg env : keeps state (send_idle_signal cfg env).
Proof. keeps_auto. Qed.

Lemma send_idle_signal_keeps_idle_state cfg env :
  keeps idle_state (send_idle_signal cfg env).
Proof. keeps_auto. Qed.

Lemma send_idle_signal_keeps_idle_timer cfg env :
  keeps idle_timer (send_idle_signal cfg env).
Proof. keeps_auto. Qed.

(** After the first assignment of a block, what the rest of the block
    keeps is read off the state right after that assignment. *)
Ltac after_assignment :=
  rewrite run_bind; cbn [modify];
  lazymatch goal with
  | |- ?f (snd (?m ?s0)) = _ =>
      transitivity (f s0);
      [assert (K : keeps f m) by keeps_auto; apply K | try reflexivity]
  end.

Lemma check_state_state cfg env s :
  state s = 0 \/ state s = 1 ->
  state (snd (check_state cfg env s)) = state_for (Some (mouseButtons env)).
Proof.
  unfold check_state, state_for, any_pressed.
  set (l := pressed _ Qt.LeftButton). set (r := pressed _ Qt.RightButton).
  set (m := pressed _ Qt.MiddleButton).
  rewrite run_bind. cbn [gets].
  intros [E|E]; rewrite E; cbn [Z.eqb Pos.eqb];
    destruct l, r, m; cbn [negb andb orb]; try exact E; after_assignment.
Qed.

Lemma state_for_cases seen : state_for seen = 0 \/ state_for seen = 1.
Proof. destruct seen as [b|]; simpl; [destruct (any_pressed b)|]; auto. Qed.

Lemma tracks_init : tracks None init.
Proof. split; simpl; congruence. Qed.

Lemma tracks_kept {A} seen (m : M A) s :
  keeps state m -> keeps idle_state m -> keeps idle_timer m ->
  tracks seen s -> tracks seen (snd (m s)).
Proof.
  intros K1 K2 K3 [H1 H2 H3].
  split; rewrite ?K1, ?K2, ?K3; assumption.
Qed.

(** Unfolds the plumbing of straight-line statements. *)
Ltac run_flat := cbv [mbind M_bind mret M_ret modify gets skip lift print]; simpl.

Lemma check_state_tracks cfg env seen s :
  tracks seen s -> tracks (Some (mouseButtons env)) (snd (check_state cfg env s)).
Proof.
  intros [H1 H2 H3].
  assert (C : state s = 0 \/ state s = 1) by (rewrite H1; apply state_for_cases).
  pose proof (check_state_state cfg env s C) as S1.
  split; [exact S1| |]; revert S1; unfold check_state, state_for, any_pressed;
    set (l := pressed _ Qt.LeftButton); set (r := pressed _ Qt.RightButton);
    set (m := pressed _ Qt.MiddleButton);
    rewrite run_bind; cbn [gets];
    destruct C as [E|E]; rewrite E; cbn [Z.eqb Pos.eqb];
    destruct l, r, m; cbn [negb andb orb];
    try (intros S1 _; exact S1);
    try (intros _; simpl; assumption);
    intros _; run_flat; destruct (idle_state s) eqn:Hi; simpl; congruence.
Qed.

Lemma last_buttons_fold evs seen : last_buttons evs seen = fold_left observe evs seen.
Proof.
  revert seen. induction evs as [|ev evs IH]; intros seen; [reflexivity|].
  destruct ev; simpl; apply IH.
Qed.

Lemma step_tracks cfg seen s ev :
  tracks seen s -> tracks (observe seen ev) (step cfg s ev).
Proof.
  intros T. destruct ev as [env|env| |env|env|image env|t]; unfold step, handler, observe.
  - apply tracks_kept; [keeps_auto..|assumption].
  - now apply check_state_tracks with seen.
  - destruct T as [H1 H2 H3]. rewrite run_bind. cbn [gets].
    destruct (idle_timer s) eqn:Ht.
    + unfold enter_idle_state. run_flat.
      destruct (idle_state s) eqn:Hi; split; simpl; rewrite ?Ht, ?Hi; auto.
    + split; simpl; rewrite ?Ht; auto; congruence.
  - rewrite run_bind. cbn [gets].
    destruct (idle_signal_timer s); [|now simpl].
    apply tracks_kept; [keeps_auto..|assumption].
  - apply tracks_kept; [keeps_auto..|assumption].
  - apply tracks_kept; [keeps_auto..|assumption].
  - apply tracks_kept; [keeps_auto..|assumption].
Qed.

Lemma run_tracks cfg evs seen s :
  tracks seen s -> tracks (last_buttons evs seen) (run cfg evs s).
Proof.
  revert seen s. induction evs as [|ev evs IH]; intros seen s T; [exact T|].
  rewrite last_buttons_fold. simpl. rewrite <- last_buttons_fold.
  apply IH. now apply step_tracks.
Qed.

(** ** The scaler *)

Lemma bind_Ok {A B} (r : Result A) (k : A -> Result B) b :
  r ≫= k = Ok b -> exists a, r = Ok a /\ k a = Ok b.
Proof. destruct r as [a|e|]; [eauto|discriminate..]. Qed.

Lemma at_site_Ok {A} faults site (a b : A) : at_site faults site a = Ok b -> b = a.
Proof. unfold at_site. destruct (faults site); congruence. Qed.

Lemma c_int_Ok z z' : Qt.c_int z = Ok z' -> z' = z.
Proof. unfold Qt.c_int. destruct (_ && _); congruence. Qed.

(** Inverts a successful run of a chain of binds, one call at a time. *)
Ltac invert_Ok H :=
  repeat match type of H with
         | _ ≫= _ = Ok _ =>
             let a := fresh "a" in
             let Ha := fresh "Ha" in
             apply bind_Ok in H; destruct H as (a & Ha & H)
         end.

(** On the path that raises nothing, [process] hands [finished] the
    result of the hybrid pipeline for the physical target size. *)
Lemma process_try_Ok cfg faults self image :
  process_try cfg faults self = Ok image ->
  thumbnail_upscale_factor cfg = 2 ->
  exists physical_width physical_height,
    physical (width self) (Qt.devicePixelRatio (projection self)) = Ok physical_width /\
    physical (height self) (Qt.devicePixelRatio (projection self)) = Ok physical_height /\
    image = hybrid_pipeline (projection self) physical_width physical_height
              (Qt.devicePixelRatio (projection self)).
Proof.
  intros H F. unfold process_try in H. rewrite F in H. invert_Ok H.
  repeat match goal with
         | E : at_site _ _ _ = Ok _ |- _ => apply at_site_Ok in E; subst
         | E : Qt.c_int _ = Ok _ |- _ => apply c_int_Ok in E; subst
         end.
  match goal with
  | Hw : Py.int _ = Ok ?pw, Hh : Py.int _ = Ok ?ph |- _ =>
      lazymatch goal with
      | |- context [Qt.scaled _ pw ph] => exists pw, ph
      end
  end.
  unfold physical. rewrite Ha0, Ha2. simpl. auto.
Qed.

Lemma setDevicePixelRatio_tag image r :
  Qt.isNull image = false -> Qt.devicePixelRatio (Qt.setDevicePixelRatio image r) = r.
Proof. destruct image; [reflexivity|discriminate]. Qed.

(** C4: on the path that raises nothing, [Worker.process] runs, in this
    order, a smooth aspect-preserving resampling of the capture to twice
    its own size, a fast resampling to twice the physical target size
    (the logical target times the capture's device pixel ratio), a
    smooth resampling to the physical target size, and tags the result
    with the capture's device pixel ratio before emitting exactly that
    image. *)
Theorem process_hybrid_pipeline_in_order (faults : Faults) (self : Worker)
    (image : Qt.QImage) :
  process_try Config faults self = Ok image ->
  exists physical_width physical_height,
    let source := projection self in
    let dpi_scale := Qt.devicePixelRatio source in
    physical (width self) dpi_scale = Ok physical_width /\
    physical (height self) dpi_scale = Ok physical_height /\
    let smoothed :=
      Qt.scaled source (Qt.width source * 2) (Qt.height source * 2)
        Qt.KeepAspectRatio Qt.SmoothTransformation in
    let fast_scaled :=
      Qt.scaled smoothed (physical_width * 2) (physical_height * 2)
        Qt.KeepAspectRatio Qt.FastTransformation in
    let final_scaled :=
      Qt.scaled fast_scaled physical_width physical_height
        Qt.KeepAspectRatio Qt.SmoothTransformation in
    image = Qt.setDevicePixelRatio final_scaled dpi_scale /\
    (Qt.isNull final_scaled = false -> Qt.devicePixelRatio image = dpi_scale) /\
    process Config faults self = ([image], []).
Proof.
  intros H.
  destruct (process_try_Ok Config faults self image H eq_refl) as (pw & ph & Hw & Hh & E).
  exists pw, ph. cbv zeta. repeat split; try assumption.
  - intros N. rewrite E. now apply setDevicePixelRatio_tag.
  - unfold process. now rewrite H.
Qed.

Lemma process_hybrid_pipeline_in_order_witness :
  process_try Config no_faults sample_worker = Ok sample_thumbnail /\
  exists physical_width physical_height,
    physical 320 (float_of_Z 1) = Ok physical_width /\
    physical 180 (float_of_Z 1) = Ok physical_height /\
    sample_thumbnail =
      Qt.setDevicePixelRatio
        (Qt.scaled
           (Qt.scaled
              (Qt.scaled (captured 1920 1080 0) 3840 2160
                 Qt.KeepAspectRatio Qt.SmoothTransformation)
              (physical_width * 2) (physical_height * 2)
              Qt.KeepAspectRatio Qt.FastTransformation)
           physical_width physical_height
           Qt.KeepAspectRatio Qt.SmoothTransformation)
        (float_of_Z 1) /\
    process Config no_faults sample_worker = ([sample_thumbnail], []).
Proof.
  split; [vm_compute; reflexivity|].
  destruct (process_hybrid_pipeline_in_order no_faults sample_worker sample_thumbnail)
    as (pw & ph & Hw & Hh & E & _ & P); [vm_compute; reflexivity|].
  exists pw, ph. auto.
Defined.

(** C9: [Worker.process] never reads [Config.use_hybrid_scaling].  With
    the toggle off it still runs the three-step pipeline, which differs
    from the single smooth pass the toggle is documented to select. *)
Theorem process_ignores_use_hybrid_scaling :
  (forall cfg b faults self,
     process (with_use_hybrid_scaling b cfg) faults self = process cfg faults self) /\
  fst (process (with_use_hybrid_scaling false Config) no_faults sample_worker)
  = [hybrid_pipeline (captured 1920 1080 0) 320 180 (float_of_Z 1)] /\
  hybrid_pipeline (captured 1920 1080 0) 320 180 (float_of_Z 1)
  <> single_smooth_pass (captured 1920 1080 0) 320 180 (float_of_Z 1).
Proof.
  split; [reflexivity|]. split; [vm_compute; reflexivity|].
  vm_compute. discriminate.
Qed.

Lemma update_thumbnail_null env s :
  fst (update_thumbnail env None s) = Ok tt /\
  thumbnail_label (snd (update_thumbnail env None s)) = thumbnail_label s /\
  _current_thumbnail (snd (update_thumbnail env None s)) = _current_thumbnail s /\
  (faults env deliver_isNull = None -> snd (update_thumbnail env None s) = s).
Proof.
  unfold update_thumbnail, try_except, call, at_site. run_flat.
  destruct (faults env deliver_isNull); simpl; repeat split; auto. discriminate.
Qed.

(** C5: when anything raises inside the [try] block of [Worker.process],
    the worker prints the error and emits the null image, and nothing
    else; [update_thumbnail] returns normally on the null image and
    leaves both the label and the cached thumbnail as they were, and so
    does the cached thumbnail through the whole of [on_worker_finished]. *)
Theorem scaling_failure_emits_sentinel_and_is_skipped (cfg : ConfigT)
    (faults : Faults) (self : Worker) (e : Exn) :
  process_try cfg faults self = Raise e ->
  process cfg faults self = ([None], [LineExn "Worker error: " e]) /\
  forall env s,
    fst (update_thumbnail env None s) = Ok tt /\
    thumbnail_label (snd (update_thumbnail env None s)) = thumbnail_label s /\
    _current_thumbnail (snd (update_thumbnail env None s)) = _current_thumbnail s /\
    _current_thumbnail (snd (on_worker_finished env None s)) = _current_thumbnail s.
Proof.
  intros H. split; [unfold process; now rewrite H|].
  intros env s. destruct (update_thumbnail_null env s) as (R & L & T & _).
  repeat split; try assumption.
  assert (K : keeps _current_thumbnail (try_finally
            (try_except (release_thread env)
               (fun e => print (LineExn "清理线程资源错误: " e);;
                         setText "没有打开的文档"))
            reset_references)) by keeps_auto.
  unfold on_worker_finished. rewrite run_bind.
  destruct (update_thumbnail env None s) as [[[]|e'|] s'] eqn:U; simpl in *;
    [|discriminate..].
  rewrite K. exact T.
Qed.

Lemma scaling_failure_emits_sentinel_and_is_skipped_witness :
  process_try Config no_faults nan_worker = Raise ValueError /\
  process Config no_faults nan_worker = ([None], [LineExn "Worker error: " ValueError]).
Proof.
  split; [vm_compute; reflexivity|].
  apply (scaling_failure_emits_sentinel_and_is_skipped Config no_faults nan_worker ValueError).
  vm_compute; reflexivity.
Defined.

(** ** Ints that convert to floats exactly *)

Lemma digits2_pos_bound p k :
  0 <= k -> Z.pos p < 2 ^ k -> Z.pos (digits2_pos p) <= k.
Proof.
  revert k. induction p as [p IH|p IH|]; intros k Hk H; simpl.
  - assert (0 < k) by (destruct (Z.eq_dec k 0); [subst; simpl in H; lia|lia]).
    replace k with (Z.succ (k - 1)) in H by lia.
    rewrite Z.pow_succ_r in H by lia.
    specialize (IH (k - 1)). lia.
  - assert (0 < k) by (destruct (Z.eq_dec k 0); [subst; simpl in H; lia|lia]).
    replace k with (Z.succ (k - 1)) in H by lia.
    rewrite Z.pow_succ_r in H by lia.
    specialize (IH (k - 1)). lia.
  - destruct (Z.eq_dec k 0); [subst; simpl in H; lia|lia].
Qed.

Lemma digits2_pos_iter_xO p k :
  digits2_pos (Pos.iter xO p k) = (digits2_pos p + k)%positive.
Proof.
  induction k as [|k IH] using Pos.peano_ind.
  - simpl. lia.
  - rewrite Pos.iter_succ. simpl. rewrite IH. lia.
Qed.

(** A positive int below [2^53] converts to a finite float. *)
Lemma float_of_Z_finite p :
  Z.pos p < 2 ^ 53 -> exists m e, float_of_Z (Z.pos p) = S754_finite false m e.
Proof.
  intros H.
  pose proof (digits2_pos_bound p 53 ltac:(lia) H) as D.
  unfold float_of_Z, binary_normalize, binary_round, shl_align, fexp, emin, prec, emax.
  set (d := digits2_pos p) in *.
  replace (Z.max (Z.pos d + 0 - 53) (3 - 1024 - 53)) with (Z.pos d - 53) by lia.
  assert (A : exists mz, digits2_pos mz = 53%positive /\
    (match Z.pos d - 53 - 0 with
     | Z.neg k => (Pos.iter xO p k, Z.pos d - 53)
     | _ => (p, 0)
     end) = (mz, Z.pos d - 53)).
  { destruct (Z.pos d - 53 - 0) eqn:E; try lia.
    - exists p. split; [fold d; lia|f_equal; lia].
    - eexists. split; [|reflexivity]. rewrite digits2_pos_iter_xO. fold d. lia. }
  destruct A as (mz & Dz & ->).
  unfold binary_round_aux, shr_fexp, fexp, emin. cbn [Zdigits2 shr_record_of_loc].
  rewrite Dz.
  replace (Z.max (53 + (Z.pos d - 53) - 53) (3 - 1024 - 53) - (Z.pos d - 53)) with 0 by lia.
  cbn [shr shr_m loc_of_shr_record round_nearest_even Zdigits2]. rewrite Dz.
  replace (Z.max (53 + (Z.pos d - 53) - 53) (3 - 1024 - 53) - (Z.pos d - 53)) with 0 by lia.
  cbn [shr shr_m].
  destruct (Z.leb_spec (Z.pos d - 53) (1024 - 53)); [eauto|lia].
Qed.

Lemma to_float_small z :
  0 < z < 2 ^ 53 -> exists f, to_float (Int z) = Ok f.
Proof.
  intros [H0 H1]. destruct z as [|p|p]; try lia.
  destruct (float_of_Z_finite p H1) as (m & e & E).
  unfold to_float. rewrite E. eauto.
Qed.

(** ** The thumbnail size without a document *)

Lemma get_thumbnail_size_no_document env :
  activeDocument env = None ->
  - 2 ^ 31 <= label_width env < 2 ^ 31 ->
  is_zero (devicePixelRatioF env) = false ->
  get_thumbnail_size Config env = Raise TypeError.
Proof.
  intros Hdoc Hw Hz. unfold get_thumbnail_size. rewrite Hdoc.
  unfold dpi_scale. cbn [ENABLE_DPI_CORRECTION Config margin].
  change (Py.min [Int 2; Int 10]) with (Ok (Int 2)).
  cbn [mbind result_bind Py.mul Py.sub]. change (2 * 2) with 4.
  change (Py.max [Int 1; Int (label_width env - 4)])
    with (Ok (if 1 <? label_width env - 4 then Int (label_width env - 4) else Int 1) : Result Val).
  change (Py.max [Int 1; Int (label_height env - 4)])
    with (Ok (if 1 <? label_height env - 4 then Int (label_height env - 4) else Int 1) : Result Val).
  cbn [mbind result_bind].
  assert (T : forall a, 0 < a < 2 ^ 53 ->
            exists q, Py.truediv (Int a) (Float (devicePixelRatioF env)) = Ok (Float q)).
  { intros a Ha. destruct (to_float_small a Ha) as (f & F).
    unfold Py.truediv. rewrite F. cbn [mbind result_bind to_float]. rewrite Hz. eauto. }
  assert (B : 2 ^ 31 < 2 ^ 53) by (vm_compute; reflexivity).
  destruct (Z.ltb_spec 1 (label_width env - 4)).
  - destruct (T (label_width env - 4) ltac:(lia)) as (q & ->). reflexivity.
  - destruct (T 1 ltac:(lia)) as (q & ->). reflexivity.
Qed.

(** C10: without an active document [get_thumbnail_size] raises a
    [TypeError] (its [min] is handed a single float), for every label
    width the toolkit can report and every non-zero device pixel ratio;
    [update_thumbnail_display], which does not look for a document,
    then raises it too and leaves the panel as it was instead of
    showing the cached thumbnail again. *)
Theorem get_thumbnail_size_raises_without_document (env : Env) :
  activeDocument env = None ->
  - 2 ^ 31 <= label_width env < 2 ^ 31 ->
  is_zero (devicePixelRatioF env) = false ->
  get_thumbnail_size Config env = Raise TypeError /\
  forall s thumbnail,
    _current_thumbnail s = Some thumbnail ->
    update_thumbnail_display Config env s = (Raise TypeError, s).
Proof.
  intros Hdoc Hw Hz.
  pose proof (get_thumbnail_size_no_document env Hdoc Hw Hz) as E.
  split; [exact E|].
  intros s thumbnail Ht. unfold update_thumbnail_display.
  rewrite run_bind. cbn [gets]. rewrite Ht, run_bind. unfold lift. now rewrite E.
Qed.

Lemma get_thumbnail_size_raises_without_document_witness :
  get_thumbnail_size Config no_document_env = Raise TypeError /\
  update_thumbnail_display Config no_document_env
    (set_current_thumbnail (Some sample_thumbnail) init)
  = (Raise TypeError, set_current_thumbnail (Some sample_thumbnail) init).
Proof.
  destruct (get_thumbnail_size_raises_without_document no_document_env) as [E D];
    [reflexivity|simpl; lia|reflexivity|].
  split; [exact E|]. now apply D with sample_thumbnail.
Defined.

(** C6: after any sequence of callbacks, [self.state] is 0 exactly when
    the latest state check saw one of the left, right or middle buttons
    pressed, and 1 exactly when it saw none of them pressed (before the
    first check it is 0); the idle flag is only ever set while
    [self.state] is 1. *)
Theorem interaction_state_tracks_buttons (cfg : ConfigT) (evs : list Event) :
  let s := run cfg evs init in
  state s = state_for (last_buttons evs None) /\
  (forall buttons,
     last_buttons evs None = Some buttons ->
     (state s = 0 <-> any_pressed buttons = true) /\
     (state s = 1 <-> any_pressed buttons = false)) /\
  (idle_state s = true -> state s = 1).
Proof.
  destruct (run_tracks cfg evs None init tracks_init) as [H1 H2 H3].
  cbv zeta. split; [exact H1|]. split; [|exact H2].
  intros buttons E. rewrite H1, E. simpl.
  destruct (any_pressed buttons); split; split; congruence.
Qed.

Lemma interaction_state_tracks_buttons_witness :
  let evs := [state_timer_timeout quiet_env; idle_timer_timeout;
              state_timer_timeout pressed_env] in
  last_buttons evs None = Some Qt.LeftButton /\
  any_pressed Qt.LeftButton = true /\
  state (run Config evs init) = 0.
Proof.
  cbv zeta. split; [reflexivity|]. split; [reflexivity|].
  destruct (interaction_state_tracks_buttons Config
              [state_timer_timeout quiet_env; idle_timer_timeout;
               state_timer_timeout pressed_env]) as (_ & H & _).
  destruct (H Qt.LeftButton eq_refl) as [[_ H0] _].
  apply H0. reflexivity.
Defined.

(** ** Sizes after scaling *)

Lemma div_bounds x y : 0 <= x -> 0 < y -> y * (x ÷ y) <= x < y * (x ÷ y + 1) /\ 0 <= x ÷ y.
Proof.
  intros Hx Hy. rewrite Z.quot_div_nonneg by lia.
  pose proof (Z.mul_div_le x y Hy). pose proof (Z.mul_succ_div_gt x y Hy).
  pose proof (Z.div_pos x y Hx Hy). lia.
Qed.

(** Names a quotient of the goal and keeps only its defining bounds. *)
Ltac name_quot x y q :=
  let Q := fresh "Q" in
  let P := fresh "P" in
  destruct (div_bounds x y) as (Q & P); [try nia|try lia|];
  revert Q P; generalize (x ÷ y) as q; intros q Q P.

(** Cancelling a positive factor. *)
Lemma cancel_le k x y : 0 < k -> k * x <= k * y -> x <= y.
Proof. intros. nia. Qed.
Lemma cancel_lt k x y : 0 < k -> k * x < k * y -> x < y.
Proof. intros. nia. Qed.

Lemma fit_double W H : 0 < W -> 0 < H -> fit W H (W * 2) (H * 2) = (W * 2, H * 2).
Proof.
  intros HW HH. unfold fit, Qt.size_scaled.
  destruct (Z.eqb_spec W 0); [lia|]. destruct (Z.eqb_spec H 0); [lia|]. cbn [orb].
  replace (H * 2 * W) with (W * 2 * H) by lia.
  rewrite Z.quot_mul by lia. rewrite Z.leb_refl. f_equal; lia.
Qed.

Lemma fit_chain W H pw ph :
  0 < W -> 0 < H -> 0 < pw -> 0 < ph ->
  forall w2 h2 w3 h3,
    fit (W * 2) (H * 2) (pw * 2) (ph * 2) = (w2, h2) ->
    fit w2 h2 pw ph = (w3, h3) ->
    within_one_pixel W H w3 h3.
Proof.
  intros HW HH Hpw Hph w2 h2 w3 h3.
  unfold fit at 1. unfold Qt.size_scaled.
  destruct (Z.eqb_spec (W * 2) 0); [lia|]. destruct (Z.eqb_spec (H * 2) 0); [lia|]. cbn [orb].
  name_quot (pw * 2 * (H * 2)) (W * 2) b.
  name_quot (ph * 2 * (W * 2)) (H * 2) a.
  assert (Ha1 : H * a <= 2 * (ph * W)) by lia.
  assert (Ha2 : 2 * (ph * W) < H * a + H) by lia.
  assert (Hb1 : W * b <= 2 * (pw * H)) by lia.
  assert (Hb2 : 2 * (pw * H) < W * b + W) by lia.
  assert (PX : 0 < ph * W) by (clear - Hph HW; nia).
  assert (PY : 0 < pw * H) by (clear - Hpw HH; nia).
  clear Q Q0.
  destruct (Z.leb_spec a (pw * 2)) as [La|La]; intros [= <- <-].
  - unfold fit, Qt.size_scaled.
    destruct (Z.eqb_spec (Z.max a 1) 0); [lia|]. destruct (Z.eqb_spec (Z.max (ph*2) 1) 0); [lia|]. cbn [orb].
    rewrite (Z.max_l (ph * 2) 1) by lia.
    name_quot (ph * Z.max a 1) (ph * 2) c.
    assert (Hc1 : 2 * c <= Z.max a 1) by (apply (cancel_le ph); lia).
    assert (Hc2 : Z.max a 1 < 2 * c + 2) by (apply (cancel_lt ph); lia).
    clear Q.
    generalize ((pw * (ph * 2)) ÷ Z.max a 1) as d. intros d.
    unfold within_one_pixel.
    destruct (Z.leb_spec c pw); [|lia]. intros [= <- <-]. left.
    rewrite (Z.max_l ph 1) by lia.
    assert (Hc : c = 0 \/ 1 <= c) by lia. destruct Hc as [->|Hc].
    + assert (Ea : a <= 1) by lia. assert (H * a <= H) by (clear - Ea HH; nia).
      simpl. lia.
    + rewrite (Z.max_l c 1) by lia. rewrite (Z.max_l a 1) in * by lia.
      assert (H * (2 * c) <= H * a) by (clear - Hc1 HH; nia).
      assert (H * a <= H * (2 * c + 1)) by (clear - Hc2 HH; nia).
      lia.
  - unfold fit, Qt.size_scaled.
    rewrite (Z.max_l (pw * 2) 1) by lia.
    destruct (Z.eqb_spec (pw * 2) 0); [lia|]. destruct (Z.eqb_spec (Z.max b 1) 0); [lia|]. cbn [orb].
    name_quot (ph * (pw * 2)) (Z.max b 1) c.
    name_quot (pw * Z.max b 1) (pw * 2) d.
    assert (Hd1 : 2 * d <= Z.max b 1) by (apply (cancel_le pw); lia).
    assert (Hd2 : Z.max b 1 < 2 * d + 2) by (apply (cancel_lt pw); lia).
    clear Q0.
    assert (Hlow : 2 * (pw * H) + H <= 2 * (ph * W)).
    { assert (H * (pw * 2 + 1) <= H * a) by (clear - La HH; nia). lia. }
    unfold within_one_pixel.
    destruct (Z.leb_spec c pw) as [Lc|Lc]; intros [= <- <-].
    + left. rewrite (Z.max_l ph 1) by lia.
      assert (Hb : b = 0 \/ 1 <= b) by lia. destruct Hb as [->|Hb].
      * exfalso. change (Z.max 0 1) with 1 in Q.
        assert (pw * 1 <= pw * ph) by (clear - Hph Hpw; nia). lia.
      * rewrite (Z.max_l b 1) in * by lia.
        assert (Bb : b < 2 * ph).
        { apply (cancel_lt W); lia. }
        assert (Ec : c = pw).
        { assert (Cc : c + 1 <= pw \/ pw <= c) by lia. destruct Cc as [Cc|Cc]; [|lia].
          exfalso.
          assert (b * (c + 1) <= b * pw) by (clear - Cc Hb; nia).
          assert (b * pw <= (2 * ph - 1) * pw) by (clear - Bb Hpw; nia).
          lia. }
        subst c. rewrite (Z.max_l pw 1) by lia.
        assert (F1 : W * (ph * (pw * 2)) < W * (b * (pw + 1))) by (clear - Q HW; nia).
        assert (F2 : (W * b) * (pw + 1) <= (2 * (pw * H)) * (pw + 1)) by (clear - Hb1 Hpw; nia).
        assert (F3 : ph * W < H * (pw + 1)) by (apply (cancel_lt (2 * pw)); lia).
        lia.
    + right. rewrite (Z.max_l pw 1) by lia.
      assert (Hd : d = 0 \/ 1 <= d) by lia. destruct Hd as [->|Hd].
      * assert (Eb : b <= 1) by lia. assert (W * b <= W) by (clear - Eb HW; nia).
        simpl. lia.
      * rewrite (Z.max_l d 1) by lia. rewrite (Z.max_l b 1) in * by lia.
        assert (W * (2 * d) <= W * b) by (clear - Hd1 HW; nia).
        assert (W * b <= W * (2 * d + 1)) by (clear - Hd2 HW; nia).
        lia.
Qed.

Lemma scaled_fit source bw bh tm :
  0 < bw -> 0 < bh ->
  exists out,
    Qt.scaled (Some source) bw bh Qt.KeepAspectRatio tm = Some out /\
    (Qt.img_width out, Qt.img_height out)
    = fit (Qt.img_width source) (Qt.img_height source) bw bh.
Proof.
  intros Hw Hh. unfold Qt.scaled, fit.
  destruct (Z.ltb_spec bw 1); [lia|]. destruct (Z.ltb_spec bh 1); [lia|]. cbn [orb].
  destruct (Qt.size_scaled _ _ bw bh Qt.KeepAspectRatio) as [nw nh].
  destruct (Z.eqb_spec (Z.max nw 1) (Qt.img_width source)) as [E1|];
    destruct (Z.eqb_spec (Z.max nh 1) (Qt.img_height source)) as [E2|];
    cbn [andb]; eexists; (split; [reflexivity|]); simpl; congruence.
Qed.

(** C8: when the capture and the physical target have positive sizes,
    what [Worker.process] emits on the path that raises nothing is an
    image whose proportions are those of the capture to within one
    pixel. *)
Theorem process_preserves_aspect_ratio (faults : Faults) (self : Worker)
    (source : Qt.ImageData) (physical_width physical_height : Z)
    (image : Qt.QImage) :
  projection self = Some source ->
  0 < Qt.img_width source ->
  0 < Qt.img_height source ->
  physical (width self) (Qt.img_ratio source) = Ok physical_width ->
  physical (height self) (Qt.img_ratio source) = Ok physical_height ->
  0 < physical_width ->
  0 < physical_height ->
  process_try Config faults self = Ok image ->
  exists out,
    image = Some out /\
    within_one_pixel (Qt.img_width source) (Qt.img_height source)
      (Qt.img_width out) (Qt.img_height out).
Proof.
  intros Hs HW HH Hpw Hph Pw Ph H.
  destruct (process_try_Ok Config faults self image H eq_refl) as (pw & ph & Hw' & Hh' & E).
  rewrite Hs in Hw', Hh', E. simpl in Hw', Hh'.
  assert (pw = physical_width) by congruence.
  assert (ph = physical_height) by congruence. subst pw ph.
  unfold hybrid_pipeline in E. cbn [Qt.width Qt.height Qt.devicePixelRatio] in E.
  destruct (scaled_fit source (Qt.img_width source * 2) (Qt.img_height source * 2)
              Qt.SmoothTransformation) as (i1 & E1 & F1); [lia..|].
  rewrite fit_double in F1 by assumption.
  destruct (scaled_fit i1 (physical_width * 2) (physical_height * 2)
              Qt.FastTransformation) as (i2 & E2 & F2); [lia..|].
  destruct (scaled_fit i2 physical_width physical_height
              Qt.SmoothTransformation) as (i3 & E3 & F3); [lia..|].
  rewrite E1, E2, E3 in E. simpl in E. subst image.
  eexists. split; [reflexivity|]. simpl.
  injection F1 as W1 H1. rewrite W1, H1 in F2.
  apply (fit_chain _ _ physical_width physical_height HW HH Pw Ph
           (Qt.img_width i2) (Qt.img_height i2)); symmetry; assumption.
Qed.

Lemma process_preserves_aspect_ratio_witness :
  exists out,
    fst (process Config no_faults tall_worker) = [Some out] /\
    Qt.img_width out = 10 /\ Qt.img_height out = 100 /\
    within_one_pixel 100 910 (Qt.img_width out) (Qt.img_height out).
Proof.
  destruct (process_preserves_aspect_ratio no_faults tall_worker
              {| Qt.img_width := 100; Qt.img_height := 910;
                 Qt.img_ratio := float_of_Z 1; Qt.img_pixels := Qt.Captured 0 |}
              10 100 (hybrid_pipeline (captured 100 910 0) 10 100 (float_of_Z 1)))
    as (out & E & P);
    [reflexivity|simpl; lia|simpl; lia|vm_compute; reflexivity|vm_compute; reflexivity
    |lia|lia|vm_compute; reflexivity|].
  exists out. vm_compute in E. injection E as <-.
  split; [vm_compute; reflexivity|]. split; [reflexivity|]. split; [reflexivity|exact P].
Defined.

(** ** Background tasks *)

Lemma alive_alter_neutral (f : QThread -> QThread) t (l : list QThread) :
  (forall th, isRunning (f th) = isRunning th) ->
  isRunning <$> alter f t l = isRunning <$> l.
Proof.
  intros Hf. rewrite (list_fmap_alter isRunning f id).
  - now apply list_alter_id.
  - apply Forall_forall. intros th _. apply Hf.
Qed.

Lemma alive_alter_const (f : QThread -> QThread) b t (l : list QThread) :
  (forall th, isRunning (f th) = b) ->
  isRunning <$> alter f t l = alter (fun _ => b) t (isRunning <$> l).
Proof.
  intros Hf. apply list_fmap_alter. apply Forall_forall. intros th _. apply Hf.
Qed.

Lemma alter_const_snoc (b x : bool) (l : list bool) :
  alter (fun _ => b) (length l) (l ++ [x]) = l ++ [b].
Proof.
  replace (length l) with (length l + 0)%nat by lia.
  now rewrite alter_app_r.
Qed.

(** Normal forms of [alive] after the toolkit operations. *)
Lemma alive_drop_thread old (l : list QThread) :
  isRunning <$> drop_thread old l = isRunning <$> l.
Proof.
  destruct old as [t|]; [|reflexivity]. simpl.
  now apply alive_alter_neutral.
Qed.

Ltac alive_simpl :=
  unfold alive; simpl;
  repeat first
    [ rewrite alive_alter_neutral by (intros ?; reflexivity)
    | rewrite alive_drop_thread
    | rewrite (alive_alter_const _ true) by (intros ?; reflexivity)
    | rewrite (alive_alter_const _ false) by (intros ?; reflexivity)
    | rewrite fmap_app; simpl ];
  rewrite <- ?(length_fmap isRunning), ?alter_const_snoc.

Ltac keeps_side ::=
  first [ reflexivity
        | alive_simpl; reflexivity
        | unfold core; f_equal; alive_simpl; reflexivity ].



Lemma tracked_of_quiet s : quiet s -> tracked s.
Proof. intros Q. split; intros t R; destruct (Q t R). Qed.

Lemma tracked_snoc_true s s' :
  alive s' = alive s ++ [true] ->
  quiet s ->
  _current_thread s' = Some (length (alive s)) ->
  _is_thread_running s' = true ->
  is_Some (_current_worker s') ->
  tracked s'.
Proof.
  intros Ea Q Et Ef Ew.
  assert (O : forall t, running s' t -> t = length (alive s)).
  { unfold running. rewrite Ea. intros t H.
    apply lookup_app_Some in H as [H|[L H]]; [destruct (Q t H)|].
    destruct (t - length (alive s))%nat eqn:E; simpl in H; [lia|].
    now rewrite lookup_nil in H. }
  split; intros t R; rewrite ?(O t R); assumption.
Qed.

Lemma tracked_at_most_one s : tracked s -> at_most_one_running s.
Proof.
  intros [H1 _ _] t1 t2 R1 R2.
  apply H1 in R1, R2. congruence.
Qed.

(** Once the thread the class refers to has left its loop, none runs. *)
Lemma quiet_after_exit s s' t :
  tracked s ->
  _current_thread s = Some t ->
  alive s' = alter (fun _ => false) t (alive s) ->
  quiet s'.
Proof.
  intros [H1 _ _] Et Ea t' R. unfold running in R. rewrite Ea in R.
  destruct (decide (t = t')) as [<-|Hne].
  - rewrite list_lookup_alter_eq in R. destruct (alive s !! t); simpl in R; congruence.
  - rewrite list_lookup_alter_ne in R by assumption.
    apply H1 in R. congruence.
Qed.

(** *** Threads that still run *)

Lemma still_running_snoc c (l : list QThread) x :
  isRunning x = false -> still_running c (l ++ [x]) = still_running c l.
Proof.
  intros Hx. destruct c as [t|]; [|reflexivity]. simpl.
  destruct (decide (t < length l)%nat) as [L|L].
  - now rewrite lookup_app_l.
  - rewrite lookup_app_r by lia. rewrite (lookup_ge_None_2 l) by lia.
    destruct (t - length l)%nat; simpl; [exact Hx|reflexivity].
Qed.

Lemma still_running_running s t :
  still_running (Some t) (threads s) = true <-> running s t.
Proof.
  unfold running, alive. simpl. rewrite list_lookup_fmap.
  destruct (threads s !! t) as [th|]; simpl; [|split; discriminate].
  split; congruence.
Qed.

Lemma quiet_not_doomed s c : quiet s -> still_running c (threads s) = false.
Proof.
  intros Q. destruct c as [t|]; [|reflexivity].
  destruct (still_running (Some t) (threads s)) eqn:E; [|reflexivity].
  apply still_running_running in E. destruct (Q t E).
Qed.

Lemma length_drop_thread old (l : list QThread) : length (drop_thread old l) = length l.
Proof. destruct old; simpl; [apply length_alter|reflexivity]. Qed.

Lemma length_drop_worker old (l : list WorkerObject) :
  length (drop_worker old l) = length l.
Proof. destruct old; simpl; [apply length_alter|reflexivity]. Qed.

(** Runs a statement symbolically, one toolkit call at a time. *)
Ltac run_sites :=
  autounfold with methods; unfold try_except, try_finally, call, at_site, abort;
  cbv [mbind M_bind mret M_ret modify gets skip lift print]; simpl;
  repeat match goal with
         | H : faults ?e ?site = _ |- context [faults ?e ?site] => rewrite H; simpl
         | |- context [still_running _ (_ ++ [_])] =>
             rewrite still_running_snoc by reflexivity; simpl
         | H : still_running ?c ?l = _ |- context [still_running ?c ?l] =>
             rewrite H; simpl
         | |- context [faults ?e ?site] => destruct (faults e site) eqn:?; simpl
         end.

Lemma stop_previous_cooperative env s :
  cooperative env -> tracked s ->
  exists s',
    stop_previous env s = (Ok true, s') /\ quiet s' /\
    workers s' = workers s /\ length (threads s') = length (threads s).
Proof.
  intros [C1 C2 C3 C4 _ _] T.
  assert (Qf : _is_thread_running s = false -> quiet s).
  { intros F t R. apply (tracked_flag s T) in R. congruence. }
  assert (Qt : forall t, _current_thread s = Some t -> ~ running s t -> quiet s).
  { intros t Et N t' R. pose proof (tracked_thread s T _ R) as E.
    rewrite Et in E. injection E as <-. contradiction. }
  unfold stop_previous. rewrite run_bind. cbn [gets].
  destruct (_is_thread_running s) eqn:F; [|exists s; auto].
  run_sites.
  destruct (_current_thread s) as [t|] eqn:Et; simpl.
  2:{ exists s. repeat split; try reflexivity.
      intros t R. apply (tracked_thread s T) in R. congruence. }
  destruct (threads s !! t) as [th|] eqn:L; simpl.
  2:{ exists s. repeat split; try reflexivity. apply (Qt t eq_refl).
      unfold running, alive. rewrite list_lookup_fmap, L. discriminate. }
  destruct (isRunning th) eqn:A; simpl.
  2:{ exists s. repeat split; try reflexivity. apply (Qt t eq_refl).
      unfold running, alive. rewrite list_lookup_fmap, L. simpl. congruence. }
  rewrite list_lookup_alter_eq, L. simpl. rewrite A, C1. simpl.
  eexists; split; [reflexivity|]. split; [|split; [reflexivity|]].
  - apply (quiet_after_exit s _ t T Et). alive_simpl. reflexivity.
  - simpl. now rewrite !length_alter.
Qed.

Lemma update_thumbnail_total env image s :
  exists s', update_thumbnail env image s = (Ok tt, s') /\ core s' = core s.
Proof.
  run_sites; try destruct (Qt.isNull image); simpl; eexists; split; reflexivity.
Qed.

Lemma preserves_bind {A B} P (m : M A) (k : A -> M B) :
  preserves P m -> (forall a, preserves P (k a)) -> preserves P (m ≫= k).
Proof.
  intros Hm Hk s Ps. rewrite run_bind. specialize (Hm s Ps).
  destruct (m s) as [[a|e|] s']; simpl in *; [now apply Hk|assumption..].
Qed.

Lemma preserves_if {A} P (c : bool) (m1 m2 : M A) :
  preserves P m1 -> preserves P m2 -> preserves P (if c then m1 else m2).
Proof. now destruct c. Qed.

(** *** Every running thread is referred to *)







(** Case analysis on the thread a statement looks at. *)
Ltac thread_cases :=
  repeat match goal with
         | H : _current_thread ?s = _ |- context [_current_thread ?s] =>
             rewrite H; simpl
         | H : _current_worker ?s = _ |- context [_current_worker ?s] =>
             rewrite H; simpl
         | H : threads ?s !! ?t = _ |- context [threads ?s !! ?t] => rewrite H; simpl
         | H : isRunning ?th = _ |- context [isRunning ?th] => rewrite H; simpl
         | |- context [match _current_thread ?s with _ => _ end] =>
             destruct (_current_thread s) eqn:?; simpl
         | |- context [match _current_worker ?s with _ => _ end] =>
             destruct (_current_worker s) eqn:?; simpl
         | |- context [alter ?f ?t ?l !! ?t] => rewrite (list_lookup_alter_eq f l t); simpl
         | |- context [match threads ?s !! ?t with _ => _ end] =>
             destruct (threads s !! t) eqn:?; simpl
         | |- context [if isRunning ?th then _ else _] =>
             destruct (isRunning th) eqn:?; simpl
         | H : exits_in_time ?env = _ |- context [exits_in_time ?env] =>
             rewrite H; simpl
         | |- context [if exits_in_time ?env then _ else _] =>
             destruct (exits_in_time env) eqn:?; simpl
         | |- context [_ <$> threads ?s !! ?t] =>
             destruct (threads s !! t) eqn:?; simpl
         end.












(** ** A refresh while a task is in flight *)

Lemma running_lookup s t :
  running s t -> exists th, threads s !! t = Some th /\ isRunning th = true.
Proof.
  unfold running, alive. rewrite list_lookup_fmap.
  destruct (threads s !! t) as [th|]; simpl; [|discriminate].
  intros [= E]. eauto.
Qed.

Lemma stop_previous_timeout env s t :
  stop_times_out env s t -> stop_previous env s = (Ok false, after_timeout s t).
Proof.
  intros [F Et R C1 C2 C3 X].
  destruct (running_lookup s t R) as (th & L & A).
  unfold stop_previous. rewrite run_bind. cbn [gets]. rewrite F.
  run_sites. rewrite Et. simpl. rewrite L. simpl. rewrite A. simpl.
  rewrite list_lookup_alter_eq, L. simpl. rewrite A, X. reflexivity.
Qed.

Lemma refresh_thumbnail_timeout cfg env s t doc :
  activeDocument env = Some doc ->
  stop_times_out env s t ->
  refresh_thumbnail cfg env s = (Ok tt, after_timeout s t).
Proof.
  intros D H. unfold refresh_thumbnail. rewrite D, run_bind.
  now rewrite (stop_previous_timeout env s t H).
Qed.

Lemma send_idle_signal_retries cfg env s :
  idle_state s = true -> _is_thread_running s = false ->
  send_idle_signal cfg env s = refresh_thumbnail cfg env s.
Proof.
  intros I F. unfold send_idle_signal. rewrite run_bind. cbn [gets]. rewrite I.
  rewrite run_bind. cbn [gets]. now rewrite F.
Qed.

Lemma busy_stop_times_out : stop_times_out slow_env busy 0.
Proof. split; vm_compute; reflexivity. Qed.

(** C2 (as the code has it): when the stop wait times out, the refresh
    returns normally after printing a warning; it has asked the thread
    to quit, created nothing, and left the references, the label and
    the cached thumbnail alone, but it has reset the in-flight flag to
    false; the next idle tick is therefore not held back and calls
    [refresh_thumbnail] again. *)
Theorem refresh_timeout_is_soft_failure (cfg : ConfigT) (env : Env) (s : State)
    (t : nat) (doc : Document) :
  activeDocument env = Some doc ->
  stop_times_out env s t ->
  let s' := snd (refresh_thumbnail cfg env s) in
  fst (refresh_thumbnail cfg env s) = Ok tt /\
  s' = after_timeout s t /\
  _is_thread_running s' = false /\
  printed s' = printed s ++ [Line "警告: 线程未能及时退出"] /\
  threads s' = alter asked_to_quit t (threads s) /\
  running s' t /\
  workers s' = workers s /\
  _current_thread s' = _current_thread s /\
  _current_worker s' = _current_worker s /\
  thumbnail_label s' = thumbnail_label s /\
  _current_thumbnail s' = _current_thumbnail s /\
  forall env', idle_state s = true ->
    send_idle_signal cfg env' s' = refresh_thumbnail cfg env' s'.
Proof.
  intros D H. cbv zeta. rewrite (refresh_thumbnail_timeout cfg env s t doc D H).
  cbn [fst snd]. repeat split.
  - unfold running. alive_simpl. apply (times_out_running env s t H).
  - intros env' I. now apply send_idle_signal_retries.
Qed.

Lemma refresh_timeout_is_soft_failure_witness :
  stop_times_out slow_env busy 0 /\
  fst (refresh_thumbnail Config slow_env busy) = Ok tt /\
  snd (refresh_thumbnail Config slow_env busy) = after_timeout busy 0.
Proof.
  split; [exact busy_stop_times_out|].
  destruct (refresh_timeout_is_soft_failure Config slow_env busy 0 full_hd eq_refl
              busy_stop_times_out) as (R & E & _).
  split; assumption.
Defined.

(** C2 fails as stated: with a task in flight and a wait that times
    out, the in-flight flag does not remain true. *)
Lemma refresh_timeout_clears_flag :
  stop_times_out slow_env busy 0 /\
  _is_thread_running busy = true /\
  _is_thread_running (snd (refresh_thumbnail Config slow_env busy)) = false.
Proof. split; [exact busy_stop_times_out|]. split; vm_compute; reflexivity. Qed.

(** ** What a statement does not look at *)

Lemma ignores_ret {A} g (a : A) : ignores g (mret a).
Proof. now intros s. Qed.

Lemma ignores_lift {A} g (r : Result A) : ignores g (lift r).
Proof. now intros s. Qed.

Lemma ignores_abort {A} g : ignores g (@abort A).
Proof. now intros s. Qed.

Lemma ignores_gets {A} g (f : State -> A) :
  (forall s, f (g s) = f s) -> ignores g (gets f).
Proof. intros H s. unfold gets. simpl. now rewrite H. Qed.

Lemma ignores_modify g (h : State -> State) :
  (forall s, h (g s) = g (h s)) -> ignores g (modify h).
Proof. intros H s. unfold modify. simpl. now rewrite H. Qed.

Lemma ignores_bind {A B} g (m : M A) (k : A -> M B) :
  ignores g m -> (forall a, ignores g (k a)) -> ignores g (m ≫= k).
Proof.
  intros Hm Hk s. rewrite !run_bind, Hm.
  destruct (m s) as [[a|e|] s']; simpl; [apply Hk|reflexivity..].
Qed.

Lemma ignores_try_except {A} g (body : M A) handler :
  ignores g body -> (forall e, ignores g (handler e)) ->
  ignores g (try_except body handler).
Proof.
  intros Hb Hh s. unfold try_except. rewrite Hb.
  destruct (body s) as [[a|e|] s']; simpl; [reflexivity|apply Hh|reflexivity].
Qed.

Lemma ignores_if {A} g (c : bool) (m1 m2 : M A) :
  ignores g m1 -> ignores g m2 -> ignores g (if c then m1 else m2).
Proof. now destruct c. Qed.

Ltac ignores_step :=
  lazymatch goal with
  | |- ignores _ (mbind _ _) => apply ignores_bind; [|intros ?]
  | |- ignores _ (try_except _ _) => apply ignores_try_except; [|intros ?]
  | |- ignores _ (modify _) => apply ignores_modify; intros ?; reflexivity
  | |- ignores _ (gets _) => apply ignores_gets; intros ?; reflexivity
  | |- ignores _ (mret _) => apply ignores_ret
  | |- ignores _ skip => apply ignores_ret
  | |- ignores _ abort => apply ignores_abort
  | |- ignores _ (lift _) => apply ignores_lift
  | |- ignores _ (call _ _ _) => apply ignores_lift
  | |- ignores _ (if _ then _ else _) => apply ignores_if
  | |- ignores _ (match ?x with _ => _ end) => destruct x
  end.

Lemma refresh_thumbnail_ignores_gating cfg env st idle :
  ignores (with_gating st idle) (refresh_thumbnail cfg env).
Proof. repeat first [ignores_step | progress autounfold with methods]. Qed.

Lemma lookup_snoc_last {A} (l : list A) (x : A) : (l ++ [x]) !! length l = Some x.
Proof. now apply list_lookup_middle. Qed.

Lemma alter_worker_neutral (f : WorkerObject -> WorkerObject) w (l : list WorkerObject) i :
  (forall wo, worker (f wo) = worker wo) ->
  worker <$> alter f w l !! i = worker <$> l !! i.
Proof.
  intros Hf. destruct (decide (w = i)) as [->|Hne].
  - rewrite list_lookup_alter_eq. destruct (l !! i); simpl; [|reflexivity].
    now rewrite Hf.
  - now rewrite list_lookup_alter_ne.
Qed.

Lemma drop_worker_worker old (l : list WorkerObject) i :
  worker <$> drop_worker old l !! i = worker <$> l !! i.
Proof.
  destruct old as [w|]; [|reflexivity]. simpl.
  now apply alter_worker_neutral.
Qed.

(** When nothing raises and no thread runs, [start_worker] leaves a new
    running thread and a new worker, and refers to both. *)
Lemma start_worker_ok env image w h s :
  (forall site, faults env site = None) ->
  quiet s ->
  exists s',
    start_worker env image w h s = (Ok tt, s') /\
    _is_thread_running s' = true /\
    _current_worker s' = Some (length (workers s)) /\
    _current_thread s' = Some (length (threads s)) /\
    worker <$> workers s' !! length (workers s)
    = Some {| projection := image; width := w; height := h |} /\
    alive s' = alive s ++ [true] /\
    thumbnail_label s' = thumbnail_label s /\
    _current_thumbnail s' = _current_thumbnail s /\
    length (workers s') = S (length (workers s)) /\
    length (threads s') = S (length (threads s)).
Proof.
  intros F Q.
  pose proof (F start_Worker). pose proof (F start_QThread).
  pose proof (F start_moveToThread). pose proof (F start_connect_started).
  pose proof (F start_connect_finished). pose proof (F start_setObjectName).
  pose proof (F start_start).
  pose proof (quiet_not_doomed s (_current_thread s) Q) as D.
  run_sites. eexists. split; [reflexivity|]. simpl.
  repeat split.
  - rewrite !alter_worker_neutral by (intros ?; reflexivity).
    rewrite drop_worker_worker, lookup_snoc_last. reflexivity.
  - alive_simpl. reflexivity.
  - rewrite !length_alter, length_drop_worker, length_app. simpl. lia.
  - rewrite !length_alter, length_drop_thread, length_app. simpl. lia.
Qed.

(** C7 (as the code has it): [canvasChanged] calls [refresh_thumbnail]
    at once, which neither reads nor writes [self.state] and
    [self.idle_state].  With a task in flight the outcome depends on the
    stop wait: if the old thread leaves its loop in time (and nothing
    raises), a task capturing the document now active is started and is
    the only one running; if the wait times out, the request is dropped
    with a warning, no task is created for the new document, and the
    in-flight flag is reset. *)
Theorem canvasChanged_refreshes_unless_stop_times_out (cfg : ConfigT) (env : Env)
    (canvas : unit) :
  (forall st idle, ignores (with_gating st idle) (canvasChanged cfg env canvas)) /\
  (forall s doc w h,
     activeDocument env = Some doc ->
     tracked s ->
     exits_in_time env = true ->
     (forall site, faults env site = None) ->
     get_thumbnail_size cfg env = Ok (w, h) ->
     let s' := snd (canvasChanged cfg env canvas s) in
     fst (canvasChanged cfg env canvas s) = Ok tt /\
     _is_thread_running s' = true /\
     _current_worker s' = Some (length (workers s)) /\
     _current_thread s' = Some (length (threads s)) /\
     worker <$> workers s' !! length (workers s)
     = Some {| projection := capture cfg env doc; width := w; height := h |} /\
     running s' (length (threads s)) /\
     at_most_one_running s') /\
  (forall s t doc,
     activeDocument env = Some doc ->
     stop_times_out env s t ->
     canvasChanged cfg env canvas s = (Ok tt, after_timeout s t)).
Proof.
  split; [|split].
  - intros st idle. apply refresh_thumbnail_ignores_gating.
  - intros s doc w h D T X F G. cbv zeta.
    assert (C : cooperative env) by (split; auto).
    unfold canvasChanged, refresh_thumbnail. rewrite D, run_bind.
    destruct (stop_previous_cooperative env s C T) as (s1 & -> & Q & Ew & Et).
    rewrite run_bind. unfold lift. rewrite G.
    destruct (start_worker_ok env (capture cfg env doc) w h s1 F Q)
      as (s2 & E2 & ? & ? & ? & Lw & Ea & _).
    fold (capture cfg env doc). rewrite E2. cbn [fst snd].
    rewrite <- Ew, <- Et. repeat split; try assumption.
    + unfold running. rewrite Ea. unfold alive. rewrite <- (length_fmap isRunning).
      apply lookup_snoc_last.
    + apply tracked_at_most_one. apply (tracked_snoc_true s1); eauto.
      unfold alive. now rewrite length_fmap.
  - intros s t doc D H. now apply refresh_thumbnail_timeout with doc.
Qed.

Lemma busy_tracked : tracked busy.
Proof.
  assert (A : alive busy = [true]) by (vm_compute; reflexivity).
  assert (O : forall t, running busy t -> t = 0%nat).
  { unfold running. rewrite A. intros [|t] R; [reflexivity|discriminate]. }
  split; intros t R; apply O in R; subst t; vm_compute; eauto.
Qed.

Lemma canvasChanged_refreshes_unless_stop_times_out_witness :
  let env := env_with (Some other_document) in
  get_thumbnail_size Config env = Ok (240, 180) /\
  _current_worker (snd (canvasChanged Config env tt busy)) = Some 1%nat /\
  worker <$> workers (snd (canvasChanged Config env tt busy)) !! 1%nat
  = Some {| projection := captured 800 600 1; width := 240; height := 180 |} /\
  canvasChanged Config replaced_slow_env tt busy = (Ok tt, after_timeout busy 0).
Proof.
  cbv zeta.
  destruct (canvasChanged_refreshes_unless_stop_times_out Config
              (env_with (Some other_document)) tt) as (_ & B & _).
  destruct (B busy other_document 240 180 eq_refl busy_tracked eq_refl
              (fun _ => eq_refl) ltac:(vm_compute; reflexivity))
    as (_ & _ & W & _ & L & _).
  destruct (canvasChanged_refreshes_unless_stop_times_out Config
              replaced_slow_env tt) as (_ & _ & D).
  split; [vm_compute; reflexivity|]. split; [exact W|]. split; [exact L|].
  apply (D busy 0%nat other_document eq_refl).
  split; vm_compute; reflexivity.
Defined.

(** C7 fails as stated: the document is replaced while the first task is
    in flight and its thread is slow to stop; [canvasChanged] returns
    without having created any thread or worker, so no task captures
    the new document, and the in-flight flag is down. *)
Lemma document_change_refresh_dropped :
  let s' := snd (canvasChanged Config replaced_slow_env tt busy) in
  activeDocument replaced_slow_env = Some other_document /\
  _is_thread_running busy = true /\
  workers s' = workers busy /\
  length (threads s') = length (threads busy) /\
  (forall w wo, workers s' !! w = Some wo ->
     projection (worker wo) <> capture Config replaced_slow_env other_document) /\
  _is_thread_running s' = false.
Proof.
  cbv zeta. split; [reflexivity|]. split; [vm_compute; reflexivity|].
  split; [vm_compute; reflexivity|]. split; [vm_compute; reflexivity|].
  split; [|vm_compute; reflexivity].
  intros w wo. vm_compute. destruct w as [|[|w]]; intros [= <-]. discriminate.
Qed.


(** ** One task at a time *)







(** ** Worker completion *)


(** The [finally] block: it ends the process when the thread referred
    to still runs, and clears everything otherwise. *)
Lemma reset_references_run s :
  if still_running (_current_thread s) (threads s)
  then reset_references s = (Abort, s)
  else
    exists s',
      reset_references s = (Ok tt, s') /\
      _current_worker s' = None /\ _current_thread s' = None /\
      _is_thread_running s' = false /\
      threads s' = drop_thread (_current_thread s) (threads s) /\
      workers s' = drop_worker (_current_worker s) (workers s) /\
      thumbnail_label s' = thumbnail_label s /\
      _current_thumbnail s' = _current_thumbnail s /\
      printed s' = printed s.
Proof.
  destruct (still_running (_current_thread s) (threads s)) eqn:D; run_sites;
    [reflexivity|].
  eexists. split; [reflexivity|]. repeat split.
Qed.






(** * Further properties of the code *)

(** ** The scaler: what it emits *)

Lemma fit_positive W H bw bh w h : fit W H bw bh = (w, h) -> 0 < w /\ 0 < h.
Proof.
  unfold fit. destruct (Qt.size_scaled W H bw bh Qt.KeepAspectRatio) as [nw nh].
  intros [= <- <-]. lia.
Qed.

(** A fitted size stays inside the box and touches one of its sides. *)
Lemma fit_in_box W H bw bh w h :
  0 < W -> 0 < H -> 0 < bw -> 0 < bh ->
  fit W H bw bh = (w, h) ->
  w <= bw /\ h <= bh /\ (w = bw \/ h = bh).
Proof.
  intros HW HH Hbw Hbh. unfold fit, Qt.size_scaled.
  destruct (Z.eqb_spec W 0); [lia|]. destruct (Z.eqb_spec H 0); [lia|]. cbn [orb].
  name_quot (bw * H) W b.
  name_quot (bh * W) H a.
  destruct (Z.leb_spec a bw) as [La|La]; intros [= <- <-].
  - lia.
  - assert (b < bh).
    { apply (cancel_lt W); [lia|].
      assert (H * (bw + 1) <= H * a) by (clear - La HH; nia). lia. }
    lia.
Qed.

(** The three stages of the pipeline on an image with data. *)
Lemma hybrid_pipeline_stages source pw ph dpi :
  0 < Qt.img_width source -> 0 < Qt.img_height source -> 0 < pw -> 0 < ph ->
  exists w2 h2 out,
    fit (Qt.img_width source * 2) (Qt.img_height source * 2) (pw * 2) (ph * 2) = (w2, h2) /\
    fit w2 h2 pw ph = (Qt.img_width out, Qt.img_height out) /\
    Qt.img_ratio out = dpi /\
    hybrid_pipeline (Some source) pw ph dpi = Some out.
Proof.
  intros HW HH Pw Ph. unfold hybrid_pipeline. cbn [Qt.width Qt.height].
  destruct (scaled_fit source (Qt.img_width source * 2) (Qt.img_height source * 2)
              Qt.SmoothTransformation) as (i1 & E1 & F1); [lia..|].
  rewrite fit_double in F1 by assumption. injection F1 as W1 H1.
  destruct (scaled_fit i1 (pw * 2) (ph * 2) Qt.FastTransformation)
    as (i2 & E2 & F2); [lia..|].
  destruct (scaled_fit i2 pw ph Qt.SmoothTransformation) as (i3 & E3 & F3); [lia..|].
  rewrite W1, H1 in F2. rewrite E1, E2, E3. simpl.
  exists (Qt.img_width i2), (Qt.img_height i2). eexists.
  split; [symmetry; exact F2|]. split; [|split; [|reflexivity]].
  - simpl. symmetry. exact F3.
  - reflexivity.
Qed.

(** X1: with a capture and a physical target of positive sizes, the
    image [Worker.process] emits on the path that raises nothing lies
    inside the physical target and spans it in width or in height. *)
Theorem process_output_fits_target (faults : Faults) (self : Worker)
    (source : Qt.ImageData) (physical_width physical_height : Z)
    (image : Qt.QImage) :
  projection self = Some source ->
  0 < Qt.img_width source ->
  0 < Qt.img_height source ->
  physical (width self) (Qt.img_ratio source) = Ok physical_width ->
  physical (height self) (Qt.img_ratio source) = Ok physical_height ->
  0 < physical_width ->
  0 < physical_height ->
  process_try Config faults self = Ok image ->
  exists out,
    image = Some out /\
    0 < Qt.img_width out <= physical_width /\
    0 < Qt.img_height out <= physical_height /\
    (Qt.img_width out = physical_width \/ Qt.img_height out = physical_height).
Proof.
  intros Hs HW HH Hpw Hph Pw Ph H.
  destruct (process_try_Ok Config faults self image H eq_refl) as (pw & ph & Hw' & Hh' & E).
  rewrite Hs in Hw', Hh', E. simpl in Hw', Hh'.
  assert (pw = physical_width) by congruence.
  assert (ph = physical_height) by congruence. subst pw ph.
  destruct (hybrid_pipeline_stages source physical_width physical_height
              (Qt.img_ratio source) HW HH Pw Ph) as (w2 & h2 & out & F2 & F3 & _ & E').
  simpl in E. rewrite E' in E. exists out. split; [exact E|].
  destruct (fit_positive _ _ _ _ _ _ F2) as [P2w P2h].
  destruct (fit_positive _ _ _ _ _ _ F3) as [P3w P3h].
  destruct (fit_in_box _ _ _ _ _ _ P2w P2h Pw Ph F3) as (B1 & B2 & B3).
  lia.
Qed.

Lemma process_output_fits_target_witness :
  exists out,
    fst (process Config no_faults tall_worker) = [Some out] /\
    Qt.img_width out <= 10 /\ Qt.img_height out = 100.
Proof.
  destruct (process_output_fits_target no_faults tall_worker
              {| Qt.img_width := 100; Qt.img_height := 910;
                 Qt.img_ratio := float_of_Z 1; Qt.img_pixels := Qt.Captured 0 |}
              10 100 (hybrid_pipeline (captured 100 910 0) 10 100 (float_of_Z 1)))
    as (out & E & Bw & _ & _);
    [reflexivity|simpl; lia|simpl; lia|vm_compute; reflexivity|vm_compute; reflexivity
    |lia|lia|vm_compute; reflexivity|].
  exists out. split; [|split; [lia|]].
  - vm_compute in E. injection E as <-. vm_compute. reflexivity.
  - vm_compute in E. injection E as <-. reflexivity.
Defined.

Lemma scaled_empty_target image w h am tm :
  w < 1 \/ h < 1 -> Qt.scaled image w h am tm = None.
Proof.
  intros E. destruct image as [d|]; [|reflexivity]. unfold Qt.scaled.
  destruct (Z.ltb_spec w 1); [reflexivity|]. destruct (Z.ltb_spec h 1); [reflexivity|].
  lia.
Qed.

(** X2: on the path that raises nothing [Worker.process] prints nothing
    and emits the null image exactly when there is nothing to scale:
    the capture is null, or the physical target has no width or no
    height. *)
Theorem process_emits_null_iff_nothing_to_scale (faults : Faults) (self : Worker)
    (physical_width physical_height : Z) (image : Qt.QImage) :
  (forall source, projection self = Some source ->
     0 < Qt.img_width source /\ 0 < Qt.img_height source) ->
  physical (width self) (Qt.devicePixelRatio (projection self)) = Ok physical_width ->
  physical (height self) (Qt.devicePixelRatio (projection self)) = Ok physical_height ->
  process_try Config faults self = Ok image ->
  process Config faults self = ([image], []) /\
  (Qt.isNull image = true <->
   Qt.isNull (projection self) = true \/ physical_width < 1 \/ physical_height < 1).
Proof.
  intros Hpos Hpw Hph H.
  split; [unfold process; now rewrite H|].
  destruct (process_try_Ok Config faults self image H eq_refl) as (pw & ph & Hw' & Hh' & E).
  assert (pw = physical_width) by congruence.
  assert (ph = physical_height) by congruence. subst pw ph image.
  destruct (projection self) as [source|] eqn:Hs; simpl.
  - destruct (Hpos source eq_refl) as [HW HH].
    destruct (Z.ltb_spec physical_width 1) as [Lw|Lw];
      [|destruct (Z.ltb_spec physical_height 1) as [Lh|Lh]].
    + unfold hybrid_pipeline. rewrite (scaled_empty_target _ physical_width) by auto.
      simpl. intuition.
    + unfold hybrid_pipeline. rewrite (scaled_empty_target _ physical_width) by auto.
      simpl. intuition.
    + destruct (hybrid_pipeline_stages source physical_width physical_height
                  (Qt.img_ratio source) HW HH ltac:(lia) ltac:(lia))
        as (w2 & h2 & out & _ & _ & _ & ->).
      simpl. split; [discriminate|]. intros [?|[?|?]]; [discriminate|lia|lia].
  - split; auto.
Qed.

Lemma process_emits_null_iff_nothing_to_scale_witness :
  physical 0 (float_of_Z 1) = Ok 0 /\
  process Config no_faults empty_target_worker = ([None], []).
Proof.
  split; [vm_compute; reflexivity|].
  destruct (process_emits_null_iff_nothing_to_scale no_faults empty_target_worker 0 180 None)
    as [P _]; try (vm_compute; reflexivity).
  intros source [= <-]. simpl. lia.
Defined.

Lemma mul_non_finite z f :
  non_finite f = true ->
  forall v, Py.mul (Int z) (Float f) = Ok v ->
  exists g, v = Float g /\ non_finite g = true.
Proof.
  intros N v. unfold Py.mul. cbn [to_float].
  destruct (float_of_Z z) as [sx|sx| |sx mx ex]; cbn [mbind result_bind];
    try discriminate; intros [= <-]; eexists; (split; [reflexivity|]);
    destruct f as [sy|sy| |sy my ey]; try discriminate; reflexivity.
Qed.

Lemma mul_int_float_ends z f : Py.mul (Int z) (Float f) <> Abort.
Proof.
  unfold Py.mul. cbn [to_float].
  destruct (float_of_Z z); cbn [mbind result_bind]; discriminate.
Qed.

Lemma int_non_finite g : non_finite g = true -> exists e, Py.int (Float g) = Raise e.
Proof. destruct g; try discriminate; simpl; eauto. Qed.

(** X3: a capture whose device pixel ratio is an infinity or NaN makes
    [Worker.process] print an error and emit the null image, for every
    target size and whatever else the toolkit does. *)
Theorem process_non_finite_ratio_gives_sentinel (cfg : ConfigT) (faults : Faults)
    (self : Worker) :
  non_finite (Qt.devicePixelRatio (projection self)) = true ->
  exists e, process cfg faults self = ([None], [LineExn "Worker error: " e]).
Proof.
  intros N. unfold process.
  assert (R : exists e, process_try cfg faults self = Raise e).
  { unfold process_try, at_site.
    destruct (faults process_devicePixelRatio) as [e|]; cbn [mbind result_bind]; [eauto|].
    destruct (Py.mul (Int (width self)) (Float (Qt.devicePixelRatio (projection self))))
      as [v|e|] eqn:M; cbn [mbind result_bind];
      [|eauto|destruct (mul_int_float_ends _ _ M)].
    destruct (mul_non_finite _ _ N v M) as (g & -> & Ng).
    destruct (int_non_finite g Ng) as (e & ->). cbn [mbind result_bind]. eauto. }
  destruct R as (e & ->). eauto.
Qed.

Lemma process_non_finite_ratio_gives_sentinel_witness :
  exists e, process Config no_faults nan_worker = ([None], [LineExn "Worker error: " e]).
Proof.
  apply (process_non_finite_ratio_gives_sentinel Config no_faults nan_worker).
  reflexivity.
Defined.

(** ** The thumbnail size with a document *)

Lemma binary_round_small sx p :
  Z.pos p < 2 ^ 53 -> exists m e, binary_round prec emax sx p 0 = S754_finite sx m e.
Proof.
  intros H.
  pose proof (digits2_pos_bound p 53 ltac:(lia) H) as D.
  unfold binary_round, shl_align, fexp, emin, prec, emax.
  set (d := digits2_pos p) in *.
  replace (Z.max (Z.pos d + 0 - 53) (3 - 1024 - 53)) with (Z.pos d - 53) by lia.
  assert (A : exists mz, digits2_pos mz = 53%positive /\
    (match Z.pos d - 53 - 0 with
     | Z.neg k => (Pos.iter xO p k, Z.pos d - 53)
     | _ => (p, 0)
     end) = (mz, Z.pos d - 53)).
  { destruct (Z.pos d - 53 - 0) eqn:E; try lia.
    - exists p. split; [fold d; lia|f_equal; lia].
    - eexists. split; [|reflexivity]. rewrite digits2_pos_iter_xO. fold d. lia. }
  destruct A as (mz & Dz & ->).
  unfold binary_round_aux, shr_fexp, fexp, emin. cbn [Zdigits2 shr_record_of_loc].
  rewrite Dz.
  replace (Z.max (53 + (Z.pos d - 53) - 53) (3 - 1024 - 53) - (Z.pos d - 53)) with 0 by lia.
  cbn [shr shr_m loc_of_shr_record round_nearest_even Zdigits2]. rewrite Dz.
  replace (Z.max (53 + (Z.pos d - 53) - 53) (3 - 1024 - 53) - (Z.pos d - 53)) with 0 by lia.
  cbn [shr shr_m].
  destruct (Z.leb_spec (Z.pos d - 53) (1024 - 53)); [eauto|lia].
Qed.

(** Ints of the toolkit convert to floats, and only 0 converts to a zero. *)
Lemma to_float_c_int z :
  - 2 ^ 31 <= z < 2 ^ 31 ->
  exists f, to_float (Int z) = Ok f /\ (z <> 0 -> is_zero f = false).
Proof.
  intros R. assert (B : 2 ^ 31 < 2 ^ 53) by (vm_compute; reflexivity).
  unfold to_float, float_of_Z, binary_normalize. destruct z as [|p|p].
  - eexists. split; [reflexivity|]. congruence.
  - destruct (binary_round_small false p ltac:(lia)) as (m & e & ->). eauto.
  - destruct (binary_round_small true p ltac:(lia)) as (m & e & ->). eauto.
Qed.

Lemma mul_c_int_float z f :
  - 2 ^ 31 <= z < 2 ^ 31 -> exists g, Py.mul (Int z) (Float f) = Ok (Float g).
Proof.
  intros R. destruct (to_float_c_int z R) as (x & E & _).
  unfold Py.mul. rewrite E. cbn [mbind result_bind to_float]. eauto.
Qed.

Lemma truediv_c_ints a b :
  - 2 ^ 31 <= a < 2 ^ 31 -> - 2 ^ 31 <= b < 2 ^ 31 ->
  (b = 0 /\ Py.truediv (Int a) (Int b) = Raise ZeroDivisionError) \/
  (b <> 0 /\ exists q, Py.truediv (Int a) (Int b) = Ok (Float q)).
Proof.
  intros Ra Rb. destruct (Z.eq_dec b 0) as [->|Hb]; [left; auto|right].
  split; [assumption|].
  destruct (to_float_c_int a Ra) as (x & Ea & _).
  destruct (to_float_c_int b Rb) as (y & Eb & Zy).
  unfold Py.truediv. destruct b; [congruence| |];
    rewrite Ea, Eb; cbn [mbind result_bind]; rewrite (Zy Hb); eauto.
Qed.

(** The margins are always computed: the lines before the document is
    looked at cannot raise. *)
Lemma available_size_ok cfg env :
  exists aw ah,
    get_thumbnail_size cfg env =
    match activeDocument env with
    | None =>
        qw ← Py.truediv (Int aw) (Float (dpi_scale cfg env));
        mw ← Py.min [qw];
        w ← Py.int mw;
        qh ← Py.truediv (Int ah) (Float (dpi_scale cfg env));
        mh ← Py.min [qh];
        h ← Py.int mh;
        Ok (w, h)
    | Some doc =>
        canvas_width ← Py.mul (Int (doc_width doc)) (Float (dpi_scale cfg env));
        canvas_height ← Py.mul (Int (doc_height doc)) (Float (dpi_scale cfg env));
        canvas_ratio ← Py.truediv (Int (doc_width doc)) (Int (doc_height doc));
        label_ratio ← Py.truediv (Int (label_width env)) (Int (label_height env));
        Py.gt canvas_ratio label_ratio ≫= fun wider : bool =>
        (if wider then
           width ← Py.mul (Int (label_width env)) (Float (dpi_scale cfg env));
           qh ← Py.truediv width canvas_ratio;
           height ← Py.int qh;
           Ok (width, Int height)
         else
           height ← Py.mul (Int (label_height env)) (Float (dpi_scale cfg env));
           pw ← Py.mul height canvas_ratio;
           width ← Py.int pw;
           Ok (Int width, height))
        ≫= fun size : Val * Val =>
        qw ← Py.truediv (fst size) (Float (dpi_scale cfg env));
        w ← Py.int qw;
        qh ← Py.truediv (snd size) (Float (dpi_scale cfg env));
        h ← Py.int qh;
        Ok (w, h)
    end.
Proof.
  unfold get_thumbnail_size. cbn [Py.min least Py.lt mbind result_bind fst snd].
  destruct (10 <? margin cfg); cbn [Py.mul mbind result_bind Py.sub Py.max greatest Py.gt Py.lt].
  - destruct (1 <? label_width env - 10 * 2), (1 <? label_height env - 10 * 2);
      eexists; eexists; reflexivity.
  - destruct (1 <? label_width env - margin cfg * 2),
             (1 <? label_height env - margin cfg * 2);
      eexists; eexists; reflexivity.
Qed.

(** X4: with a document active, [get_thumbnail_size] raises
    [ZeroDivisionError] when the document or the label has zero height
    (the widths and heights being C ints). *)
Theorem get_thumbnail_size_zero_height (cfg : ConfigT) (env : Env) (doc : Document) :
  activeDocument env = Some doc ->
  c_int_range (doc_width doc) ->
  c_int_range (doc_height doc) ->
  c_int_range (label_width env) ->
  c_int_range (label_height env) ->
  doc_height doc = 0 \/ label_height env = 0 ->
  get_thumbnail_size cfg env = Raise ZeroDivisionError.
Proof.
  intros D Rw Rh Lw Lh Z0.
  destruct (available_size_ok cfg env) as (aw & ah & ->). rewrite D.
  destruct (mul_c_int_float (doc_width doc) (dpi_scale cfg env) Rw) as (g1 & ->).
  destruct (mul_c_int_float (doc_height doc) (dpi_scale cfg env) Rh) as (g2 & ->).
  cbn [mbind result_bind].
  destruct (truediv_c_ints (doc_width doc) (doc_height doc) Rw Rh)
    as [[_ ->]|[Hne (q & ->)]]; [reflexivity|].
  cbn [mbind result_bind].
  destruct (truediv_c_ints (label_width env) (label_height env) Lw Lh)
    as [[_ ->]|[Hne' _]]; [reflexivity|].
  lia.
Qed.

Lemma get_thumbnail_size_zero_height_witness :
  get_thumbnail_size Config flat_label_env = Raise ZeroDivisionError.
Proof.
  apply (get_thumbnail_size_zero_height Config flat_label_env full_hd);
    try reflexivity; unfold c_int_range; simpl; try lia.
Defined.

(** X5: an exception of [get_thumbnail_size] is not contained.  With no
    task in flight, [refresh_thumbnail] and [canvasChanged] raise it and
    leave the panel as it was; the idle tick raises it too; and
    [check_state], on the release edge, raises it after having set
    [self.state] to 1 and before starting the idle timer. *)
Theorem size_errors_escape_refresh (cfg : ConfigT) (env : Env) (s : State)
    (doc : Document) (e : Exn) :
  activeDocument env = Some doc ->
  get_thumbnail_size cfg env = Raise e ->
  _is_thread_running s = false ->
  refresh_thumbnail cfg env s = (Raise e, s) /\
  canvasChanged cfg env tt s = (Raise e, s) /\
  (state s = 0 -> any_pressed (mouseButtons env) = false -> idle_state s = false ->
   check_state cfg env s = (Raise e, set_state 1 s)) /\
  (idle_state s = true -> send_idle_signal cfg env s = (Raise e, s)).
Proof.
  intros D G F.
  assert (R : forall s', _is_thread_running s' = false ->
                         refresh_thumbnail cfg env s' = (Raise e, s')).
  { intros s' F'. unfold refresh_thumbnail, stop_previous. rewrite D.
    rewrite !run_bind. cbn [gets]. rewrite F'. cbn [mret M_ret].
    rewrite run_bind. unfold lift. now rewrite G. }
  split; [now apply R|]. split; [now apply R|]. split.
  - intros S0 P I. unfold check_state. rewrite run_bind. cbn [gets]. rewrite S0.
    cbn [Z.eqb]. unfold any_pressed in P.
    destruct (pressed (mouseButtons env) Qt.LeftButton),
             (pressed (mouseButtons env) Qt.RightButton),
             (pressed (mouseButtons env) Qt.MiddleButton); try discriminate.
    cbn [negb andb]. rewrite run_bind. cbn [modify]. rewrite run_bind. cbn [gets].
    rewrite run_bind. cbn [gets]. simpl _is_thread_running. simpl idle_state.
    rewrite F, I. cbn [negb andb]. rewrite run_bind. rewrite R by exact F. reflexivity.
  - intros I. rewrite send_idle_signal_retries by assumption. now apply R.
Qed.

Lemma size_errors_escape_refresh_witness :
  get_thumbnail_size Config flat_label_env = Raise ZeroDivisionError /\
  refresh_thumbnail Config flat_label_env init = (Raise ZeroDivisionError, init) /\
  check_state Config flat_label_env init = (Raise ZeroDivisionError, set_state 1 init) /\
  idle_timer (set_state 1 init) = false.
Proof.
  assert (G : get_thumbnail_size Config flat_label_env = Raise ZeroDivisionError)
    by (vm_compute; reflexivity).
  destruct (size_errors_escape_refresh Config flat_label_env init full_hd
              ZeroDivisionError eq_refl G eq_refl) as (R & _ & C & _).
  split; [exact G|]. split; [exact R|]. split; [|reflexivity].
  apply C; reflexivity.
Defined.

(** ** Handles of the task in flight *)

Lemma preserves_try_except {A} P (body : M A) handler :
  preserves P body -> (forall e, preserves P (handler e)) ->
  preserves P (try_except body handler).
Proof.
  intros Hb Hh s Ps. unfold try_except. specialize (Hb s Ps).
  destruct (body s) as [[a|e|] s']; simpl in *; [assumption|now apply Hh|assumption].
Qed.

Lemma preserves_try_finally {A} P (body : M A) final :
  preserves P body -> preserves P final -> preserves P (try_finally body final).
Proof.
  intros Hb Hf s Ps. unfold try_finally. specialize (Hb s Ps).
  destruct (body s) as [r s']; simpl in *. specialize (Hf s' Hb).
  destruct r as [a|e0|]; [..|assumption];
    destruct (final s') as [[[]|e|] s'']; simpl in *; assumption.
Qed.

Lemma preserves_of_keeps {A B} (P : State -> Prop) (f : State -> B) (m : M A) :
  (forall s s', f s' = f s -> P s -> P s') -> keeps f m -> preserves P m.
Proof. intros Hf K s Ps. apply (Hf s); [apply K|assumption]. Qed.

Lemma links_alter_neutral (f : WorkerObject -> WorkerObject) w (l : list WorkerObject) :
  (forall wo, worker_thread (f wo) = worker_thread wo) ->
  worker_thread <$> alter f w l = worker_thread <$> l.
Proof.
  intros Hf. rewrite (list_fmap_alter worker_thread f id).
  - now apply list_alter_id.
  - apply Forall_forall. intros wo _. apply Hf.
Qed.

Lemma links_drop_worker old (l : list WorkerObject) :
  worker_thread <$> drop_worker old l = worker_thread <$> l.
Proof.
  destruct old as [w|]; [|reflexivity]. simpl. now apply links_alter_neutral.
Qed.

Ltac hcore_simpl :=
  unfold hcore, links; simpl;
  rewrite ?length_alter, ?length_drop_thread, ?length_drop_worker;
  repeat first [ rewrite links_alter_neutral by (intros ?; reflexivity)
               | rewrite links_drop_worker ].

Ltac keeps_side ::=
  first [ reflexivity
        | alive_simpl; reflexivity
        | unfold core; f_equal; alive_simpl; reflexivity
        | hcore_simpl; reflexivity ].

Lemma handles_hcore s s' : hcore s' = hcore s -> handles_ok s -> handles_ok s'.
Proof.
  unfold hcore. intros [= Et Ew Ef El Ek] [H1 H2 H3].
  assert (Lw : length (workers s') = length (workers s)).
  { unfold links in Ek. apply (f_equal length) in Ek. now rewrite !length_fmap in Ek. }
  split; rewrite ?Et, ?Ew, ?Ef, ?El, ?Ek, ?Lw; assumption.
Qed.

Lemma handles_unflag : preserves handles_ok (modify (set_is_thread_running false)).
Proof. intros s [H1 H2 H3]. split; simpl; auto. discriminate. Qed.

Lemma handles_reset : preserves handles_ok reset_references.
Proof.
  intros s H. pose proof (reset_references_run s) as P.
  destruct (still_running (_current_thread s) (threads s)).
  - rewrite P. exact H.
  - destruct P as (s' & -> & P1 & P2 & P3 & _). simpl.
    split; rewrite ?P1, ?P2, ?P3; discriminate.
Qed.

Lemma lookup_lt_snoc {A} (l : list A) (x : A) (i : nat) :
  (i < length l)%nat -> (i < length (l ++ [x]))%nat.
Proof. rewrite length_app. simpl. lia. Qed.

(** After the block that stops the previous thread, a flag that is
    still up goes with a thread that does not run. *)
Lemma stop_previous_settled env s :
  fst (stop_previous env s) = Ok true ->
  _is_thread_running (snd (stop_previous env s)) = true ->
  still_running (_current_thread (snd (stop_previous env s)))
    (threads (snd (stop_previous env s))) = false.
Proof.
  unfold stop_previous. rewrite run_bind. cbn [gets].
  destruct (_is_thread_running s) eqn:F; [|simpl; congruence].
  run_sites; thread_cases; try discriminate; intros _ _; thread_cases;
    try reflexivity.
Qed.

Lemma handles_start_worker env image w h s :
  handles_ok s ->
  (_is_thread_running s = true ->
   still_running (_current_thread s) (threads s) = false) ->
  handles_ok (snd (start_worker env image w h s)).
Proof.
  intros [H1 H2 H3] S.
  assert (V : forall i, drop_worker (_current_worker s)
                (workers s ++ [{| worker := {| projection := image; width := w; height := h |};
                                  worker_thread := None; finished_receivers := 0;
                                  worker_deleteLater := false;
                                  worker_destroyed := false |}]) !! length (workers s)
              = Some i -> worker_thread i = None).
  { intros i. destruct (_current_worker s) as [w0|] eqn:Ew; simpl.
    - specialize (H2 w0 eq_refl). rewrite list_lookup_alter_ne by lia.
      rewrite lookup_snoc_last. now intros [= <-].
    - rewrite lookup_snoc_last. now intros [= <-]. }
  destruct (still_running (_current_thread s) (threads s)) eqn:D.
  - assert (F : _is_thread_running s = false).
    { destruct (_is_thread_running s); [|reflexivity].
      pose proof (S eq_refl). congruence. }
    run_sites.
    all: split; simpl;
      rewrite ?length_alter, ?length_drop_thread, ?length_drop_worker, ?length_app;
      simpl; rewrite ?F;
      try discriminate;
      try (intros ? [= <-]; lia);
      try (intros t' E; specialize (H1 t' E); lia);
      try (intros w' E; specialize (H2 w' E); lia).
  - clear S. run_sites.
    all: split; simpl;
      rewrite ?length_alter, ?length_drop_thread, ?length_drop_worker, ?length_app;
      simpl;
      try discriminate;
      try (intros ? [= <-]; lia);
      try (intros t' E; specialize (H1 t' E); lia);
      try (intros w' E; specialize (H2 w' E); lia).
    intros _. eexists _, _. split; [reflexivity|]. split; [reflexivity|].
    unfold links. simpl. rewrite list_lookup_fmap, !list_lookup_alter_eq.
    destruct (drop_worker _ _ !! length (workers s)) as [i|] eqn:L; [reflexivity|].
    exfalso. apply lookup_ge_None in L.
    rewrite length_drop_worker, length_app in L. simpl in L. lia.
Qed.

(** Follows the syntax of a statement down to the assignments that
    matter for the invariant at hand. *)
Ltac preserves_step :=
  lazymatch goal with
  | |- preserves _ (mbind _ _) => apply preserves_bind; [|intros ?]
  | |- preserves _ (try_except _ _) => apply preserves_try_except; [|intros ?]
  | |- preserves _ (try_finally _ _) => apply preserves_try_finally
  | |- preserves _ (if _ then _ else _) => apply preserves_if
  | |- preserves _ (match ?x with _ => _ end) => destruct x
  end.

Ltac handles_leaf :=
  first [ apply handles_unflag | apply handles_reset
        | solve [apply (preserves_of_keeps _ hcore); [apply handles_hcore|keeps_auto]] ].

Lemma handles_stop_previous env : preserves handles_ok (stop_previous env).
Proof. unfold stop_previous. repeat first [handles_leaf | preserves_step]. Qed.

Lemma handles_refresh_thumbnail cfg env : preserves handles_ok (refresh_thumbnail cfg env).
Proof.
  intros s H. unfold refresh_thumbnail, setText.
  destruct (activeDocument env) as [doc|].
  2:{ apply (handles_hcore s); [reflexivity|assumption]. }
  rewrite run_bind.
  pose proof (handles_stop_previous env s H) as H1.
  pose proof (stop_previous_settled env s) as S.
  destruct (stop_previous env s) as [[[]|e|] s1]; simpl in *; try exact H1.
  rewrite run_bind. unfold lift.
  destruct (get_thumbnail_size cfg env) as [[w h]|e|]; simpl; try exact H1.
  apply handles_start_worker; [exact H1|]. now apply S.
Qed.

Lemma handles_on_worker_finished env image :
  preserves handles_ok (on_worker_finished env image).
Proof.
  unfold on_worker_finished.
  repeat first [handles_leaf | preserves_step].
Qed.

Lemma handles_step cfg ev : preserves handles_ok (handler cfg ev).
Proof.
  destruct ev; cbn [handler]; unfold check_state, send_idle_signal, canvasChanged;
    repeat first [ apply handles_refresh_thumbnail | apply handles_on_worker_finished
                 | handles_leaf | preserves_step ].
Qed.

Lemma handles_init : handles_ok init.
Proof. split; simpl; discriminate. Qed.

(** X6: the handles of the task in flight stay consistent.  After any
    sequence of callbacks, whatever the toolkit raises and whether
    threads leave in time or not, [_current_thread] and
    [_current_worker] refer to objects that were created, and while
    [_is_thread_running] is set both are set and the worker referred to
    is the one that was moved to the thread referred to. *)
Theorem handles_stay_consistent (cfg : ConfigT) (evs : list Event) :
  handles_ok (run cfg evs init).
Proof.
  assert (G : forall s, handles_ok s -> handles_ok (run cfg evs s)).
  { induction evs as [|ev evs IH]; intros s Hs; [exact Hs|].
    simpl. apply IH. now apply handles_step. }
  apply G, handles_init.
Qed.

(** ** What the label shows *)

Lemma shown_same s s' : shown s' = shown s -> shown_ok s -> shown_ok s'.
Proof.
  unfold shown. intros [= El Ec] [H1 H2]. split; rewrite ?El, ?Ec; assumption.
Qed.

Lemma shown_text text : preserves shown_ok (modify (set_thumbnail_label (Text text))).
Proof. intros s [H1 H2]. split; simpl; [assumption|discriminate]. Qed.

(** [update_thumbnail] is all or nothing: it never raises, and it either
    replaces both the pixmap on the label and the cached thumbnail by
    the image, which is then not null, or leaves both as they were. *)
Lemma update_thumbnail_all_or_nothing env image s :
  fst (update_thumbnail env image s) = Ok tt /\
  (shown (snd (update_thumbnail env image s)) = shown s \/
   (Qt.isNull image = false /\
    shown (snd (update_thumbnail env image s)) = (Pixmap image, Some image))).
Proof.
  unfold shown. run_sites; try destruct (Qt.isNull image) eqn:N; simpl; auto.
Qed.

Lemma shown_update_thumbnail env image : preserves shown_ok (update_thumbnail env image).
Proof.
  intros s Hs. destruct (update_thumbnail_all_or_nothing env image s) as [_ [E|[N E]]].
  - now apply (shown_same s).
  - unfold shown in E. injection E as El Ec. split; rewrite ?El, ?Ec.
    + now intros ? [= <-].
    + now intros ? [= <-].
Qed.

Ltac shown_leaf :=
  first [ apply shown_text | apply shown_update_thumbnail
        | solve [apply (preserves_of_keeps _ shown); [apply shown_same|keeps_auto]] ].

Lemma shown_refresh_thumbnail cfg env : preserves shown_ok (refresh_thumbnail cfg env).
Proof.
  unfold refresh_thumbnail, setText.
  repeat first [shown_leaf | preserves_step].
Qed.

Lemma shown_step cfg ev : preserves shown_ok (handler cfg ev).
Proof.
  destruct ev; cbn [handler];
    unfold check_state, send_idle_signal, canvasChanged, on_worker_finished, setText;
    repeat first [ apply shown_refresh_thumbnail | shown_leaf | preserves_step ].
Qed.

Lemma shown_init : shown_ok init.
Proof. split; simpl; discriminate. Qed.

(** X7: the label and the cache agree.  After any sequence of
    callbacks, the cached thumbnail is never a null image, and whenever
    the label shows a pixmap it is the one of the cached thumbnail: a
    delivery that fails halfway changes neither. *)
Theorem label_shows_cached_thumbnail (cfg : ConfigT) (evs : list Event) :
  shown_ok (run cfg evs init).
Proof.
  assert (G : forall s, shown_ok s -> shown_ok (run cfg evs s)).
  { induction evs as [|ev evs IH]; intros s Hs; [exact Hs|].
    simpl. apply IH. now apply shown_step. }
  apply G, shown_init.
Qed.

(** X9: [update_thumbnail] is all or nothing.  It never raises; it either
    puts the image on the label and caches it, the image being then not
    null, or leaves label and cache as they were; and it touches
    nothing of the task in flight or of the interaction state. *)
Theorem update_thumbnail_is_all_or_nothing (env : Env) (image : Qt.QImage) (s : State) :
  let s' := snd (update_thumbnail env image s) in
  fst (update_thumbnail env image s) = Ok tt /\
  ((thumbnail_label s' = thumbnail_label s /\
    _current_thumbnail s' = _current_thumbnail s) \/
   (Qt.isNull image = false /\
    thumbnail_label s' = Pixmap image /\ _current_thumbnail s' = Some image)) /\
  (_is_thread_running s', _current_thread s', _current_worker s', threads s',
   workers s', state s', idle_state s', idle_timer s', idle_signal_timer s')
  = (_is_thread_running s, _current_thread s, _current_worker s, threads s,
     workers s, state s, idle_state s, idle_timer s, idle_signal_timer s).
Proof.
  cbv zeta. destruct (update_thumbnail_all_or_nothing env image s) as [R C].
  split; [exact R|]. split.
  - unfold shown in C. destruct C as [[= -> ->]|[N [= -> ->]]]; auto.
  - assert (K : keeps (fun s => (_is_thread_running s, _current_thread s,
                  _current_worker s, threads s, workers s, state s, idle_state s,
                  idle_timer s, idle_signal_timer s)) (update_thumbnail env image))
      by keeps_auto.
    apply K.
Qed.

(** ** Refreshing and the buttons *)

(** Outside the release edge, a state check touches nothing but the
    interaction flags and the idle timer. *)
Lemma check_state_off_edge cfg env s :
  state s <> 0 \/ any_pressed (mouseButtons env) = true ->
  fst (check_state cfg env s) = Ok tt /\
  panel (snd (check_state cfg env s)) = panel s /\
  idle_signal_timer (snd (check_state cfg env s)) = idle_signal_timer s.
Proof.
  intros H. unfold check_state, any_pressed in *.
  set (l := pressed _ Qt.LeftButton) in *. set (r := pressed _ Qt.RightButton) in *.
  set (m := pressed _ Qt.MiddleButton) in *.
  rewrite run_bind. cbn [gets].
  destruct (Z.eqb_spec (state s) 0) as [E|E].
  - destruct H as [H|H]; [contradiction|].
    destruct l, r, m; try discriminate; cbn [negb andb]; auto.
  - destruct (state s =? 1); [|auto].
    destruct (l || r || m); [|auto].
    run_flat. destruct (idle_state s); auto.
Qed.

Lemma held_step cfg ev s :
  while_held ev -> state s = 0 -> idle_state s = false -> idle_timer s = false ->
  state (step cfg s ev) = 0 /\ idle_state (step cfg s ev) = false /\
  idle_timer (step cfg s ev) = false /\ panel (step cfg s ev) = panel s.
Proof.
  intros W S I T. destruct ev as [env|env| |env|env|image env|t];
    try contradiction; unfold step, handler.
  - simpl in W. unfold check_state. rewrite run_bind. cbn [gets]. rewrite S.
    cbn [Z.eqb]. unfold any_pressed in W.
    destruct (pressed _ Qt.LeftButton), (pressed _ Qt.RightButton),
      (pressed _ Qt.MiddleButton); try discriminate; simpl; auto.
  - rewrite run_bind. cbn [gets]. rewrite T. simpl. auto.
  - rewrite run_bind. cbn [gets]. destruct (idle_signal_timer s); [|simpl; auto].
    unfold send_idle_signal. rewrite run_bind. cbn [gets]. rewrite I. simpl. auto.
  - simpl. unfold panel. simpl. rewrite length_alter. auto.
Qed.

Lemma held_run cfg evs s :
  Forall while_held evs -> state s = 0 -> idle_state s = false -> idle_timer s = false ->
  panel (run cfg evs s) = panel s.
Proof.
  intros W. revert s. induction W as [|ev evs Wev _ IH]; intros s S I T; [reflexivity|].
  destruct (held_step cfg ev s Wev S I T) as (S' & I' & T' & P).
  simpl. rewrite IH by assumption. exact P.
Qed.

(** X8: no refresh while a button is held.  From a state check that
    sees a button pressed on, and as long as the callbacks that come are
    state checks that still see one pressed, the two idle timers and
    threads leaving, no task is started or stopped and neither the
    label, the cached thumbnail nor the console changes; this holds
    whatever happened before and whatever the toolkit raises. *)
Theorem no_refresh_while_button_held (cfg : ConfigT) (before : list Event) (env : Env)
    (during : list Event) :
  any_pressed (mouseButtons env) = true ->
  Forall while_held during ->
  panel (run cfg (before ++ state_timer_timeout env :: during) init)
  = panel (run cfg before init).
Proof.
  intros B W. unfold run. rewrite fold_left_app. fold (run cfg before init).
  set (s := run cfg before init). simpl. fold (run cfg during (step cfg s (state_timer_timeout env))).
  destruct (check_state_off_edge cfg env s (or_intror B)) as (_ & P & _).
  assert (T : tracks (Some (mouseButtons env)) (step cfg s (state_timer_timeout env))).
  { apply (step_tracks cfg (last_buttons before None) s (state_timer_timeout env)).
    apply run_tracks, tracks_init. }
  destruct T as [T1 T2 T3]. simpl in T1. rewrite B in T1.
  rewrite held_run; [exact P|assumption|exact T1|..].
  - destruct (idle_state (step _ _ _)); [|reflexivity]. specialize (T2 eq_refl). lia.
  - destruct (idle_timer (step _ _ _)); [|reflexivity]. specialize (T3 eq_refl). lia.
Qed.

Lemma no_refresh_while_button_held_witness :
  let before := [panel_created quiet_env; state_timer_timeout quiet_env;
                 idle_timer_timeout] in
  let during := [idle_signal_timer_timeout quiet_env; state_timer_timeout pressed_env;
                 idle_timer_timeout; thread_exits 0] in
  any_pressed (mouseButtons pressed_env) = true /\
  Forall while_held during /\
  panel (run Config (before ++ state_timer_timeout pressed_env :: during) init)
  = panel (run Config before init).
Proof.
  cbv zeta.
  assert (W : Forall while_held
                [idle_signal_timer_timeout quiet_env; state_timer_timeout pressed_env;
                 idle_timer_timeout; thread_exits 0]).
  { repeat constructor. }
  split; [reflexivity|]. split; [exact W|].
  exact (no_refresh_while_button_held Config _ pressed_env _ eq_refl W).
Defined.

(** ** Where exceptions come from *)


Lemma numeric_weaken {A} (P Q : A -> Prop) (r : Result A) :
  numeric P r -> (forall a, P a -> Q a) -> numeric Q r.
Proof. destruct r; simpl; auto. Qed.






























(** ** Completions nobody waits for *)

Lemma update_thumbnail_keeps_handles env image :
  keeps (fun s => (_current_thread s, _current_worker s, threads s, workers s))
    (update_thumbnail env image).
Proof. keeps_auto. Qed.

Lemma on_worker_finished_untracked env image s :
  _current_thread s = None \/ _current_worker s = None ->
  on_worker_finished env image s
  = reset_references (snd (update_thumbnail env image s)).
Proof.
  intros H.
  destruct (update_thumbnail_total env image s) as (s' & E & _).
  pose proof (update_thumbnail_keeps_handles env image s) as K.
  rewrite E in K. simpl in K. injection K as Kt Kw _ _.
  unfold on_worker_finished. rewrite run_bind, E. cbn [snd].
  assert (B : try_except (release_thread env)
                (fun e => print (LineExn "清理线程资源错误: " e);;
                          setText "没有打开的文档") s' = (Ok tt, s')).
  { unfold try_except, release_thread. run_flat. rewrite Kt, Kw.
    destruct H as [-> | ->]; [reflexivity|].
    destruct (_current_thread s); reflexivity. }
  unfold try_finally. rewrite B.
  pose proof (reset_references_run s') as R.
  destruct (still_running (_current_thread s') (threads s')).
  - now rewrite R.
  - destruct R as (s'' & -> & _). reflexivity.
Qed.



(** ** A task that cannot be started *)

Lemma lookup_snoc_false (l : list bool) (t : nat) :
  (l ++ [false]) !! t = Some true -> l !! t = Some true.
Proof.
  intros H. apply lookup_app_Some in H as [H|[_ H]]; [exact H|].
  destruct (t - length l)%nat; simpl in H; [congruence|].
  now rewrite lookup_nil in H.
Qed.

Lemma start_worker_failure env image w h s site e0 :
  In site start_sites -> faults env site = Some e0 ->
  still_running (_current_thread s) (threads s) = false \/
  site = start_Worker \/ site = start_QThread ->
  let s' := snd (start_worker env image w h s) in
  fst (start_worker env image w h s) = Ok tt /\
  _is_thread_running s' = false /\
  (exists site' e,
     In site' start_sites /\ faults env site' = Some e /\
     printed s' = printed s ++ [LineExn "创建线程错误: " e]) /\
  (forall t, running s' t -> running s t) /\
  shown s' = shown s /\
  (state s', idle_state s', idle_timer s', idle_signal_timer s')
  = (state s, idle_state s, idle_timer s, idle_signal_timer s).
Proof.
  intros I F S. cbv zeta. unfold running, shown.
  simpl in I.
  repeat (destruct I as [<-|I]; [|]); try contradiction.
  all: destruct (still_running (_current_thread s) (threads s)) eqn:Hd;
    try (exfalso; destruct S as [S|[S|S]]; discriminate).
  all: run_sites; try congruence.
  all: (split; [reflexivity|]; split; [reflexivity|]; split;
        [ match goal with
          | Hf : faults _ ?st = Some ?e |- _ =>
              exists st, e; split; [simpl; tauto|split; [exact Hf|reflexivity]]
          end
        | split; [|split; reflexivity] ]).
  all: intros t; alive_simpl; try (intros R; exact R); apply lookup_snoc_false.
Qed.

(** X12: a task that cannot be started is a skipped refresh.  With a
    document open, no task in flight (the flag is down, and the thread
    referred to, if there is one, has stopped) and a size computed, if
    any of the toolkit calls that create, wire and start the task
    raises, then [refresh_thumbnail] returns normally with the
    in-flight flag down and one line on the console, which reports the
    exception of one of these calls; no thread is running that was not
    running before, and the label, the cached thumbnail, the
    interaction state and the timers are as they were.  The same holds
    with a running thread referred to when it is the creation of the
    worker or of the thread that raises, for then the handle of the
    thread is not bound anew. *)
Theorem start_failure_skips_the_refresh (cfg : ConfigT) (env : Env) (s : State)
    (doc : Document) (w h : Z) (site : Site) (e0 : Exn) :
  activeDocument env = Some doc ->
  _is_thread_running s = false ->
  get_thumbnail_size cfg env = Ok (w, h) ->
  In site start_sites ->
  faults env site = Some e0 ->
  still_running (_current_thread s) (threads s) = false \/
  site = start_Worker \/ site = start_QThread ->
  let s' := snd (refresh_thumbnail cfg env s) in
  fst (refresh_thumbnail cfg env s) = Ok tt /\
  _is_thread_running s' = false /\
  (exists site' e,
     In site' start_sites /\ faults env site' = Some e /\
     printed s' = printed s ++ [LineExn "创建线程错误: " e]) /\
  (forall t, running s' t -> running s t) /\
  shown s' = shown s /\
  (state s', idle_state s', idle_timer s', idle_signal_timer s')
  = (state s, idle_state s, idle_timer s, idle_signal_timer s).
Proof.
  intros D F G I X S.
  assert (E : refresh_thumbnail cfg env s
              = start_worker env (capture cfg env doc) w h s).
  { unfold refresh_thumbnail, stop_previous. rewrite D, !run_bind. cbn [gets].
    rewrite F. cbn [mret M_ret]. rewrite run_bind. unfold lift. now rewrite G. }
  rewrite E. exact (start_worker_failure env _ w h s site e0 I X S).
Qed.

Lemma start_failure_skips_the_refresh_witness :
  let s' := snd (refresh_thumbnail Config unstartable_env init) in
  In start_start start_sites /\
  fst (refresh_thumbnail Config unstartable_env init) = Ok tt /\
  _is_thread_running s' = false /\
  (forall t, running s' t -> running init t).
Proof.
  cbv zeta.
  assert (I : In start_start start_sites) by (simpl; tauto).
  destruct (start_failure_skips_the_refresh Config unstartable_env init full_hd 320 180
              start_start RuntimeError eq_refl eq_refl) as (R & F & _ & Q & _).
  - vm_compute. reflexivity.
  - exact I.
  - reflexivity.
  - left. reflexivity.
  - split; [exact I|]. split; [exact R|]. split; [exact F|exact Q].
Defined.

(** ** A thread that cannot be stopped *)

(** X13: an error while stopping the previous thread is a skipped
    refresh.  With a document open and a task in flight whose thread
    runs, if [isRunning], [quit] or [wait] raises, then
    [refresh_thumbnail] returns normally after printing the exception;
    it has reset the in-flight flag, although the thread still runs and
    the handles still refer to it, and it has created nothing and left
    the label and the cached thumbnail alone. *)
Theorem stop_error_skips_the_refresh (cfg : ConfigT) (env : Env) (s : State) (t : nat)
    (doc : Document) (e : Exn) :
  activeDocument env = Some doc ->
  _is_thread_running s = true ->
  _current_thread s = Some t ->
  running s t ->
  stop_raises env e ->
  let s' := snd (refresh_thumbnail cfg env s) in
  fst (refresh_thumbnail cfg env s) = Ok tt /\
  _is_thread_running s' = false /\
  printed s' = printed s ++ [LineExn "停止线程错误: " e] /\
  alive s' = alive s /\ running s' t /\
  workers s' = workers s /\
  _current_thread s' = Some t /\ _current_worker s' = _current_worker s /\
  shown s' = shown s.
Proof.
  intros D F Et R X. cbv zeta.
  destruct (running_lookup s t R) as (th & L & A).
  assert (G : exists s',
             stop_previous env s = (Ok false, s') /\
             _is_thread_running s' = false /\
             printed s' = printed s ++ [LineExn "停止线程错误: " e] /\
             alive s' = alive s /\
             workers s' = workers s /\
             _current_thread s' = Some t /\ _current_worker s' = _current_worker s /\
             shown s' = shown s).
  { unfold stop_previous. rewrite run_bind. cbn [gets]. rewrite F.
    destruct X as [X1|X1 X2|X1 X2 X3]; run_sites; rewrite Et; simpl;
      rewrite ?L; simpl; rewrite ?A; simpl;
      (eexists; split; [reflexivity|]); simpl; repeat split; try assumption.
    alive_simpl. reflexivity. }
  destruct G as (s' & E & H1 & H2 & H3 & H4 & H5 & H6 & H7).
  unfold refresh_thumbnail. rewrite D, run_bind, E. simpl.
  repeat split; try assumption. unfold running. rewrite H3. exact R.
Qed.

Lemma stop_error_skips_the_refresh_witness :
  let s' := snd (refresh_thumbnail Config unstoppable_env busy) in
  running busy 0 /\ stop_raises unstoppable_env RuntimeError /\
  fst (refresh_thumbnail Config unstoppable_env busy) = Ok tt /\
  _is_thread_running s' = false /\ running s' 0.
Proof.
  cbv zeta.
  assert (R : running busy 0) by (vm_compute; reflexivity).
  assert (X : stop_raises unstoppable_env RuntimeError).
  { apply raises_at_quit; reflexivity. }
  destruct (stop_error_skips_the_refresh Config unstoppable_env busy 0%nat full_hd
              RuntimeError eq_refl eq_refl eq_refl R X) as (H1 & H2 & _ & _ & H3 & _).
  auto.
Defined.

(** ** Rescaling the cached thumbnail *)

(** A size fitted once has the proportions of the original to within
    one pixel. *)
Lemma fit_within_one_pixel W H bw bh w h :
  0 < W -> 0 < H -> 0 < bw -> 0 < bh ->
  fit W H bw bh = (w, h) -> within_one_pixel W H w h.
Proof.
  intros HW HH Hbw Hbh. unfold fit, Qt.size_scaled, within_one_pixel.
  destruct (Z.eqb_spec W 0); [lia|]. destruct (Z.eqb_spec H 0); [lia|]. cbn [orb].
  name_quot (bw * H) W b.
  name_quot (bh * W) H a.
  destruct (Z.leb_spec a bw) as [La|La]; intros [= <- <-].
  - left. destruct (Z.max_spec a 1) as [[? ->]|[? ->]]; [|lia].
    assert (a = 0) by lia. subst a.
    assert (0 < bh * W) by (clear - Hbh HW; nia). lia.
  - right. destruct (Z.max_spec b 1) as [[? ->]|[? ->]]; [|lia].
    assert (b = 0) by lia. subst b.
    assert (0 < bw * H) by (clear - Hbw HH; nia). lia.
Qed.

Lemma update_thumbnail_display_run cfg env s thumbnail :
  _current_thumbnail s = Some thumbnail ->
  update_thumbnail_display cfg env s
  = match get_thumbnail_size cfg env with
    | Ok (tw, th) =>
        match Qt.c_int tw with
        | Ok w =>
            match Qt.c_int th with
            | Ok h =>
                (Ok tt,
                 set_thumbnail_label
                   (Pixmap (Qt.scaled thumbnail w h Qt.KeepAspectRatio
                              Qt.SmoothTransformation))
                   s)
            | Raise e => (Raise e, s)
            | Abort => (Abort, s)
            end
        | Raise e => (Raise e, s)
        | Abort => (Abort, s)
        end
    | Raise e => (Raise e, s)
    | Abort => (Abort, s)
    end.
Proof.
  intros C. unfold update_thumbnail_display. rewrite run_bind. cbn [gets]. rewrite C.
  rewrite run_bind. unfold lift at 1.
  destruct (get_thumbnail_size cfg env) as [[tw th]|e|]; [|reflexivity..].
  rewrite run_bind. unfold lift at 1. destruct (Qt.c_int tw) as [w|e|]; [|reflexivity..].
  rewrite run_bind. unfold lift at 1. destruct (Qt.c_int th) as [h|e|]; reflexivity.
Qed.

(** X14: [update_thumbnail_display] shows the cached thumbnail fitted
    to the size [get_thumbnail_size] gives.  When it returns, with a
    thumbnail in the cache, the label shows that thumbnail scaled to
    that size and nothing else has changed; for positive sizes the
    pixmap shown fits the size, touches one of its sides, has the
    proportions of the cached thumbnail to within one pixel and keeps
    its device pixel ratio. *)
Theorem display_fits_the_cached_thumbnail (cfg : ConfigT) (env : Env) (s : State)
    (cached : Qt.ImageData) :
  _current_thumbnail s = Some (Some cached) ->
  fst (update_thumbnail_display cfg env s) = Ok tt ->
  exists w h,
    get_thumbnail_size cfg env = Ok (w, h) /\
    snd (update_thumbnail_display cfg env s)
    = set_thumbnail_label
        (Pixmap (Qt.scaled (Some cached) w h Qt.KeepAspectRatio Qt.SmoothTransformation)) s /\
    (0 < Qt.img_width cached -> 0 < Qt.img_height cached -> 0 < w -> 0 < h ->
     exists out,
       Qt.scaled (Some cached) w h Qt.KeepAspectRatio Qt.SmoothTransformation = Some out /\
       0 < Qt.img_width out <= w /\ 0 < Qt.img_height out <= h /\
       (Qt.img_width out = w \/ Qt.img_height out = h) /\
       within_one_pixel (Qt.img_width cached) (Qt.img_height cached)
         (Qt.img_width out) (Qt.img_height out) /\
       Qt.img_ratio out = Qt.img_ratio cached).
Proof.
  intros C. rewrite (update_thumbnail_display_run cfg env s _ C).
  destruct (get_thumbnail_size cfg env) as [[tw th]|e|]; [|discriminate..].
  destruct (Qt.c_int tw) as [w|e|] eqn:Ew; [|discriminate..].
  destruct (Qt.c_int th) as [h|e|] eqn:Eh; [|discriminate..].
  apply c_int_Ok in Ew, Eh. subst w h. intros _.
  exists tw, th. split; [reflexivity|]. split; [reflexivity|].
  intros HW HH Hw Hh.
  destruct (scaled_fit cached tw th Qt.SmoothTransformation Hw Hh) as (out & E & F).
  exists out. split; [exact E|].
  symmetry in F.
  destruct (fit_positive _ _ _ _ _ _ F) as [P1 P2].
  destruct (fit_in_box _ _ _ _ _ _ HW HH Hw Hh F) as (B1 & B2 & B3).
  pose proof (fit_within_one_pixel _ _ _ _ _ _ HW HH Hw Hh F) as A.
  repeat split; try assumption.
  revert E. unfold Qt.scaled.
  destruct ((tw <? 1) || (th <? 1)); [discriminate|].
  destruct (Qt.size_scaled _ _ _ _ _) as [nw nh].
  destruct (_ && _); intros [= <-]; reflexivity.
Qed.

Lemma display_fits_the_cached_thumbnail_witness :
  let s := set_current_thumbnail (Some sample_thumbnail) init in
  exists cached w h,
    _current_thumbnail s = Some (Some cached) /\
    fst (update_thumbnail_display Config quiet_env s) = Ok tt /\
    get_thumbnail_size Config quiet_env = Ok (w, h).
Proof.
  cbv zeta.
  destruct sample_thumbnail as [cached|] eqn:E; [|discriminate].
  assert (R : fst (update_thumbnail_display Config quiet_env
                     (set_current_thumbnail (Some (Some cached)) init)) = Ok tt).
  { revert E. vm_compute. intros [= <-]. reflexivity. }
  destruct (display_fits_the_cached_thumbnail Config quiet_env
              (set_current_thumbnail (Some (Some cached)) init) cached eq_refl R)
    as (w & h & G & _).
  exists cached, w, h. split; [reflexivity|]. split; [exact R|exact G].
Defined.

(** X15: [update_thumbnail_display] works from the cache, never from
    what the label shows.  It changes nothing but the label; it changes
    nothing at all when it raises or when the cache is empty; hence a
    second call that returns ends where it would have ended without
    the first: resizing the panel again and again does not degrade the
    thumbnail. *)
Theorem display_works_from_the_cache (cfg : ConfigT) (env : Env) (s : State) :
  let s' := snd (update_thumbnail_display cfg env s) in
  s' = set_thumbnail_label (thumbnail_label s') s /\
  (forall e, fst (update_thumbnail_display cfg env s) = Raise e -> s' = s) /\
  (_current_thumbnail s = None -> update_thumbnail_display cfg env s = (Ok tt, s)) /\
  (forall env',
     fst (update_thumbnail_display cfg env' s') = Ok tt ->
     update_thumbnail_display cfg env' s' = update_thumbnail_display cfg env' s).
Proof.
  cbv zeta.
  assert (Eta : s = set_thumbnail_label (thumbnail_label s) s) by (now destruct s).
  assert (N : _current_thumbnail s = None -> update_thumbnail_display cfg env s = (Ok tt, s)).
  { intros C. unfold update_thumbnail_display. rewrite run_bind. cbn [gets]. now rewrite C. }
  destruct (_current_thumbnail s) as [thumbnail|] eqn:C.
  - rewrite (update_thumbnail_display_run cfg env s _ C).
    assert (Again : forall env' L,
              fst (update_thumbnail_display cfg env' (set_thumbnail_label L s)) = Ok tt ->
              update_thumbnail_display cfg env' (set_thumbnail_label L s)
              = update_thumbnail_display cfg env' s).
    { intros env' L.
      rewrite (update_thumbnail_display_run cfg env' (set_thumbnail_label L s) thumbnail C).
      rewrite (update_thumbnail_display_run cfg env' s thumbnail C).
      destruct (get_thumbnail_size cfg env') as [[tw th]|e|]; [|discriminate..].
      destruct (Qt.c_int tw); [|discriminate..]. destruct (Qt.c_int th); [|discriminate..].
      reflexivity. }
    destruct (get_thumbnail_size cfg env) as [[tw th]|e|];
      [destruct (Qt.c_int tw) as [w|e|]; [destruct (Qt.c_int th) as [h|e|]|..]|..]; simpl.
    1: { split; [reflexivity|]. split; [discriminate|]. split; [discriminate|].
         intros env'. apply Again. }
    all: split; [exact Eta|]; split; [reflexivity|]; split; [discriminate|]; reflexivity.
  - rewrite (N eq_refl). simpl. split; [exact Eta|]. split; [reflexivity|].
    split; [reflexivity|]. reflexivity.
Qed.

Lemma display_works_from_the_cache_witness :
  let s := set_current_thumbnail (Some sample_thumbnail) init in
  let s' := snd (update_thumbnail_display Config quiet_env s) in
  fst (update_thumbnail_display Config quiet_env s') = Ok tt /\
  update_thumbnail_display Config quiet_env s' = update_thumbnail_display Config quiet_env s.
Proof.
  cbv zeta.
  assert (R : fst (update_thumbnail_display Config quiet_env
                     (snd (update_thumbnail_display Config quiet_env
                             (set_current_thumbnail (Some sample_thumbnail) init)))) = Ok tt)
    by (vm_compute; reflexivity).
  split; [exact R|].
  destruct (display_works_from_the_cache Config quiet_env
              (set_current_thumbnail (Some sample_thumbnail) init)) as (_ & _ & _ & H).
  exact (H quiet_env R).
Defined.

(** ** No document open *)

Lemma refresh_thumbnail_no_document cfg env s :
  activeDocument env = None ->
  refresh_thumbnail cfg env s = (Ok tt, set_thumbnail_label (Text "没有打开的文档") s).
Proof. intros D. unfold refresh_thumbnail. now rewrite D. Qed.

Lemma no_task_step cfg ev s :
  without_document ev -> no_task s ->
  fst (handler cfg ev s) = Ok tt /\ no_task (step cfg s ev).
Proof.
  intros W (Ht & Hw & Hf & Hct & Hcw).
  assert (R : forall env s0, activeDocument env = None -> no_task s0 ->
                fst (refresh_thumbnail cfg env s0) = Ok tt /\
                no_task (snd (refresh_thumbnail cfg env s0))).
  { intros env s0 D N. rewrite (refresh_thumbnail_no_document cfg env s0 D). now split. }
  destruct ev as [env|env| |env|env|image env|t]; unfold step; cbn [handler];
    unfold without_document in W; simpl in W.
  - apply R; [exact W|]. repeat split; assumption.
  - unfold check_state. rewrite run_bind. cbn [gets].
    destruct (state s =? 0).
    + destruct (_ && _); [|repeat split; assumption].
      run_flat. rewrite Hf. destruct (idle_state s); simpl.
      * repeat split; assumption.
      * rewrite (refresh_thumbnail_no_document cfg env _ W). simpl.
        repeat split; assumption.
    + destruct (state s =? 1); [|repeat split; assumption].
      destruct (_ || _); [|repeat split; assumption].
      run_flat. destruct (idle_state s); simpl; repeat split; assumption.
  - rewrite run_bind. cbn [gets]. unfold enter_idle_state.
    destruct (idle_timer s); [|repeat split; assumption].
    rewrite run_bind. cbn [gets].
    destruct (idle_state s); simpl; repeat split; assumption.
  - rewrite run_bind. cbn [gets]. unfold send_idle_signal.
    destruct (idle_signal_timer s); [|repeat split; assumption].
    rewrite run_bind. cbn [gets].
    destruct (idle_state s); [|simpl; repeat split; assumption].
    rewrite run_bind. cbn [gets]. rewrite Hf. simpl.
    apply R; [exact W|]. repeat split; assumption.
  - apply R; [exact W|]. repeat split; assumption.
  - rewrite (on_worker_finished_untracked env image s (or_introl Hct)).
    pose proof (update_thumbnail_keeps_handles env image s) as K.
    simpl in K. injection K as Kct Kcw Kt Kw.
    pose proof (reset_references_run (snd (update_thumbnail env image s))) as Q.
    rewrite Kct, Hct in Q. cbn [still_running] in Q.
    destruct Q as (s' & -> & ? & ? & ? & Ts & Ws & _).
    split; [reflexivity|].
    unfold no_task. simpl. rewrite Ts, Ws, ?Kct, ?Kcw, ?Hct, ?Hcw. simpl.
    rewrite ?Kt, ?Kw.
    repeat split; assumption.
  - simpl. unfold no_task. simpl. rewrite Ht. repeat split; assumption.
Qed.

(** X16: with no document open, nothing is ever started.  As long as
    every callback that asks the host finds no document, whatever else
    happens, every callback returns normally, no thread or worker is
    created, no task is referred to and the in-flight flag stays down;
    a refresh then leaves the placeholder text on the label, so that
    the branch of [get_thumbnail_size] without document is never
    reached. *)
Theorem nothing_starts_without_document (cfg : ConfigT) (evs : list Event) :
  Forall without_document evs ->
  no_task (run cfg evs init) /\
  (forall ev,
     without_document ev -> fst (handler cfg ev (run cfg evs init)) = Ok tt) /\
  (forall env,
     activeDocument env = None ->
     thumbnail_label (snd (refresh_thumbnail cfg env (run cfg evs init)))
     = Text "没有打开的文档").
Proof.
  intros W.
  assert (N : forall s, no_task s -> no_task (run cfg evs s)).
  { induction W as [|ev evs Wev _ IH]; intros s Hs; [exact Hs|].
    simpl. apply IH. now apply no_task_step. }
  assert (I : no_task init) by (repeat split).
  split; [exact (N init I)|]. split.
  - intros ev Wev. now apply no_task_step; [|apply N].
  - intros env D. now rewrite refresh_thumbnail_no_document.
Qed.

Lemma nothing_starts_without_document_witness :
  let evs := [panel_created no_document_env; state_timer_timeout no_document_env;
              idle_timer_timeout; idle_signal_timer_timeout no_document_env;
              canvas_changed no_document_env] in
  Forall without_document evs /\ no_task (run Config evs init).
Proof.
  cbv zeta.
  assert (W : Forall without_document
                [panel_created no_document_env; state_timer_timeout no_document_env;
                 idle_timer_timeout; idle_signal_timer_timeout no_document_env;
                 canvas_changed no_document_env]).
  { repeat constructor. }
  split; [exact W|].
  exact (proj1 (nothing_starts_without_document Config _ W)).
Defined.

(** ** The idle refresh *)

Lemma idle_ticking_kept {A} (m : M A) s :
  keeps (fun s => (idle_state s, idle_signal_timer s)) m ->
  (idle_state s = true -> idle_signal_timer s = true) ->
  idle_state (snd (m s)) = true -> idle_signal_timer (snd (m s)) = true.
Proof. intros K H. specialize (K s). simpl in K. injection K as -> ->. exact H. Qed.

Lemma idle_ticking_step cfg ev s :
  (idle_state s = true -> idle_signal_timer s = true) ->
  idle_state (step cfg s ev) = true -> idle_signal_timer (step cfg s ev) = true.
Proof.
  intros H. destruct ev as [env|env| |env|env|image env|t]; unfold step; cbn [handler].
  - apply idle_ticking_kept; [keeps_auto|exact H].
  - unfold check_state. rewrite run_bind. cbn [gets].
    destruct (state s =? 0).
    + destruct (_ && _); [|exact H].
      apply (idle_ticking_kept
               (modify (set_state 1);;
                (gets _is_thread_running ≫= fun running : bool =>
                 gets idle_state ≫= fun idle : bool =>
                 (if negb running && negb idle then refresh_thumbnail cfg env else skip);;
                 modify (set_idle_timer true)))); [keeps_auto|exact H].
    + destruct (state s =? 1); [|exact H].
      destruct (_ || _); [|exact H].
      run_flat. destruct (idle_state s) eqn:I; simpl; [discriminate|].
      rewrite I. discriminate.
  - rewrite run_bind. cbn [gets]. unfold enter_idle_state.
    destruct (idle_timer s); [|exact H].
    rewrite run_bind. cbn [gets]. destruct (idle_state s) eqn:I; simpl; [|reflexivity].
    intros _. now apply H.
  - rewrite run_bind. cbn [gets]. unfold send_idle_signal.
    destruct (idle_signal_timer s) eqn:T; [|simpl; rewrite T; exact H].
    rewrite run_bind. cbn [gets]. destruct (idle_state s) eqn:I; [|simpl; congruence].
    apply (idle_ticking_kept
             (gets _is_thread_running ≫= fun running : bool =>
              if negb running then refresh_thumbnail cfg env else skip));
      [keeps_auto|congruence].
  - apply idle_ticking_kept; [unfold canvasChanged; keeps_auto|exact H].
  - apply idle_ticking_kept; [keeps_auto|exact H].
  - exact H.
Qed.

Lemma idle_ticking_run cfg evs s :
  (idle_state s = true -> idle_signal_timer s = true) ->
  idle_state (run cfg evs s) = true -> idle_signal_timer (run cfg evs s) = true.
Proof.
  revert s. induction evs as [|ev evs IH]; intros s H; [exact H|].
  simpl. apply IH. now apply idle_ticking_step.
Qed.

(** X17: while the panel is idle the refresh timer ticks, and each tick
    refreshes unless a task is in flight.  After any sequence of
    callbacks, if the idle flag is set then no button was seen pressed
    by the latest state check, the idle refresh timer is active, and
    its callback does exactly what [refresh_thumbnail] does when the
    in-flight flag is down, and nothing when it is up. *)
Theorem idle_ticks_refresh (cfg : ConfigT) (evs : list Event) (env : Env) :
  let s := run cfg evs init in
  idle_state s = true ->
  state s = 1 /\
  idle_signal_timer s = true /\
  handler cfg (idle_signal_timer_timeout env) s
  = if _is_thread_running s then (Ok tt, s) else refresh_thumbnail cfg env s.
Proof.
  cbv zeta. intros I.
  destruct (run_tracks cfg evs None init tracks_init) as [_ T _].
  assert (A : idle_signal_timer (run cfg evs init) = true).
  { apply idle_ticking_run; [discriminate|exact I]. }
  split; [exact (T I)|]. split; [exact A|].
  cbn [handler]. rewrite run_bind. cbn [gets]. rewrite A.
  unfold send_idle_signal. rewrite run_bind. cbn [gets]. rewrite I.
  rewrite run_bind. cbn [gets]. now destruct (_is_thread_running _).
Qed.

Lemma idle_ticks_refresh_witness :
  let evs := [panel_created quiet_env; worker_finished sample_thumbnail quiet_env;
              state_timer_timeout quiet_env; idle_timer_timeout] in
  idle_state (run Config evs init) = true /\
  idle_signal_timer (run Config evs init) = true.
Proof.
  cbv zeta.
  assert (I : idle_state
                (run Config
                   [panel_created quiet_env; worker_finished sample_thumbnail quiet_env;
                    state_timer_timeout quiet_env; idle_timer_timeout] init) = true)
    by (vm_compute; reflexivity).
  split; [exact I|].
  exact (proj1 (proj2 (idle_ticks_refresh Config _ quiet_env I))).
Defined.

(** ** The margin and the size *)

(** X18: with a document open, the margin has no part in the size
    of the thumbnail.  [get_thumbnail_size] computes the available
    width and height, the label's less the margin on both sides, but
    with a document open it works from the full size of the label; the
    result depends on the configuration through
    [ENABLE_DPI_CORRECTION] alone. *)
Theorem get_thumbnail_size_ignores_the_margin (cfg cfg' : ConfigT) (env : Env)
    (doc : Document) :
  activeDocument env = Some doc ->
  ENABLE_DPI_CORRECTION cfg = ENABLE_DPI_CORRECTION cfg' ->
  get_thumbnail_size cfg env = get_thumbnail_size cfg' env.
Proof.
  intros D E. unfold get_thumbnail_size, dpi_scale. rewrite D, E.
  cbn [Py.min Py.max Py.least Py.greatest Py.lt Py.gt Py.mul Py.sub mbind result_bind].
  destruct (10 <? margin cfg), (10 <? margin cfg');
    cbn [Py.min Py.max Py.least Py.greatest Py.lt Py.gt Py.mul Py.sub mbind result_bind];
    repeat match goal with
           | |- context [if ?c then Int ?a else Int ?b] =>
               replace (if c then Int a else Int b) with (Int (if c then a else b))
                 by (now destruct c);
               cbn [Py.min Py.max Py.least Py.greatest Py.lt Py.gt Py.mul Py.sub
                      mbind result_bind]
           end;
    reflexivity.
Qed.

Lemma get_thumbnail_size_ignores_the_margin_witness :
  margin wide_margin_config <> margin Config /\
  get_thumbnail_size wide_margin_config quiet_env = get_thumbnail_size Config quiet_env.
Proof.
  split; [discriminate|].
  exact (get_thumbnail_size_ignores_the_margin wide_margin_config Config quiet_env full_hd
           eq_refl eq_refl).
Defined.
